(** * Doctor Botter: the persistent conversation bot

    A shallow embedding of [main.go]: the per-user dialogue state machine
    ([UserState] and its handlers), the dispatcher ([handleMessage]) and the
    file-backed storage ([Storage.Load] / [Storage.Save]), followed by the
    properties of the written specification that were checked against it.

    Conventions of the embedding.
    - A Go [string] is a sequence of bytes: Rocq's [string].
    - A Go map may be [nil]: [gomap K V] is [option (gmap K V)], [None]
      being the nil map.  Reading a nil map behaves like reading an empty
      one, writing to it panics.
    - Methods on [*UserState] mutate the receiver: they become functions
      returning the updated record next to their results.
    - [for k, v := range m] visits the entries of [m] in an order the Go
      runtime chooses anew at every loop.  Every function that ranges over a
      map takes that order as an extra argument [ord]; [ranges m ord] says
      that [ord] is an order the runtime may produce for [m]. *)

From Stdlib Require Import Ascii ZArith Lia.
From stdpp Require Import gmap strings list fin_maps sorting pretty.

Local Open Scope Z_scope.

(** ** Go values *)

(** Outcome of a call that may panic. *)
Inductive result (A : Type) : Type :=
  | Ok (a : A)
  | Panic (msg : string).
Arguments Ok {A} a.
Arguments Panic {A} msg.

Definition rbind {A B} (r : result A) (k : A → result B) : result B :=
  match r with
  | Ok a => k a
  | Panic msg => Panic msg
  end.

Notation "x ←ᵣ r ; k" := (rbind r (λ x, k))
  (at level 100, r at next level, k at level 200, right associativity).

Abbreviation gomap K V := (option (gmap K V)).

Module GoMap.
Section ops.
Context {K V : Type} `{Countable K}.

(** The entries of a map; a nil map has none. *)
Definition entries (m : gomap K V) : gmap K V := default ∅ m.

(** [len(m)] *)
Definition len (m : gomap K V) : nat := size (entries m).

(** [v, ok := m[k]] *)
Definition index (m : gomap K V) (k : K) : option V := entries m !! k.

(** [m[k] = v] *)
Definition assign (m : gomap K V) (k : K) (v : V) : result (gomap K V) :=
  match m with
  | Some g => Ok (Some (<[k:=v]> g))
  | None => Panic "assignment to entry in nil map"
  end.

(** An order in which one [range] loop may visit [m]. *)
Definition ranges (m : gomap K V) (ord : list (K * V)) : Prop :=
  ord ≡ₚ map_to_list (entries m).
End ops.
End GoMap.
Import GoMap.

(** ** Package [strings] *)

Module Strings.

Definition byte_in (lo hi c : ascii) : bool :=
  (N_of_ascii lo <=? N_of_ascii c)%N && (N_of_ascii c <=? N_of_ascii hi)%N.

(** [c += 'a' - 'A'] for an upper-case ASCII letter. *)
Definition lowerByte (c : ascii) : ascii :=
  if byte_in "A" "Z" c then ascii_of_N (N_of_ascii c + 32) else c.

Fixpoint mapBytes (f : ascii → ascii) (s : string) : string :=
  match s with
  | EmptyString => EmptyString
  | String c s' => String (f c) (mapBytes f s')
  end.

(** No byte is [>= utf8.RuneSelf]. *)
Fixpoint isASCII (s : string) : bool :=
  match s with
  | EmptyString => true
  | String c s' => (N_of_ascii c <? 128)%N && isASCII s'
  end.

(** The Unicode tables of package [unicode] are not part of the program.
    [MapToLower s] stands for [strings.Map(unicode.ToLower, s)], the path
    [strings.ToLower] takes for a string with a byte outside ASCII.  It
    writes at least one byte for every rune it reads. *)
Class Unicode := {
  MapToLower : string → string;
  MapToLower_nonempty : ∀ s, s ≠ "" → MapToLower s ≠ "";
}.

(** [strings.ToLower]: ASCII-only strings are lower-cased byte by byte. *)
Definition ToLower `{Unicode} (s : string) : string :=
  if isASCII s then mapBytes lowerByte s else MapToLower s.

(** [strings.Join(elems, sep)] *)
Definition Join (elems : list string) (sep : string) : string :=
  String.concat sep elems.

(** [strings.Contains(s, substr)] *)
Definition Contains (s substr : string) : Prop :=
  ∃ pre post, s = pre +:+ substr +:+ post.

(** A table that lower-cases nothing outside ASCII; it serves to evaluate
    the program on concrete inputs. *)
#[export] Program Instance ascii_only : Unicode := {|
  MapToLower := mapBytes lowerByte;
|}.
Next Obligation. intros [|c s] Hs; [done | discriminate]. Qed.

End Strings.
Import Strings.

(** ** Dialogue state machine *)

Definition StateChoosing : string := "choosing".
Definition StateTypingReply : string := "typing_reply".
Definition StateTypingChoice : string := "typing_choice".

Record UserState := mkUserState {
  State : string;
  Data : gomap string string;
  Choice : string;
}.

Definition set_State (s : string) (u : UserState) : UserState :=
  {| State := s; Data := Data u; Choice := Choice u |}.
Definition set_Choice (c : string) (u : UserState) : UserState :=
  {| State := State u; Data := Data u; Choice := c |}.
Definition set_Data (d : gomap string string) (u : UserState) : UserState :=
  {| State := State u; Data := d; Choice := Choice u |}.

Definition NewUserState : UserState :=
  {| State := StateChoosing; Data := Some ∅; Choice := "" |}.

Definition nl : string := String "010" "".
Definition dquote : string := String "034" "".

(** What a text handler returns: [(reply, withKeyboard, done)]. *)
Definition answer : Type := string * bool * bool.

Section handlers.
Context `{Unicode}.

Definition fact_line (kv : string * string) : string :=
  kv.1 +:+ " - " +:+ kv.2.

Definition factsToStr (data : gomap string string)
    (ord : list (string * string)) : string :=
  if decide (len data = 0%nat) then nl +:+ nl
  else nl +:+ Join (fact_line <$> ord) nl +:+ nl.

Definition HandleCommandStart (u : UserState)
    (ord : list (string * string)) : UserState * string :=
  let sb := "Hi! My name is Doctor Botter." in
  let sb :=
    if decide (0 < len (Data u))%nat then
      let keys := ord.*1 in
      sb +:+ " You already told me your " +:+ Join keys ", " +:+
      ". Why don't you tell me something more about yourself? Or change anything I already know."
    else
      sb +:+ " I will hold a more complex conversation with you. Why don't you tell me something about yourself?" in
  (set_State StateChoosing u, sb).

Definition HandleShowData (u : UserState)
    (ord : list (string * string)) : UserState * string :=
  (u, "This is what you already told me: " +:+ factsToStr (Data u) ord).

Definition is_preset (text : string) : bool :=
  bool_decide (text = "Age") || bool_decide (text = "Favourite colour")
  || bool_decide (text = "Number of siblings").

Definition reply_known (choice existing : string) : string :=
  "Your " +:+ choice +:+ "? I already know the following about that: " +:+ existing.
Definition reply_unknown (choice : string) : string :=
  "Your " +:+ choice +:+ "? Yes, I would love to hear about that!".

Definition handleChoosing (u : UserState) (text : string) : UserState * answer :=
  if is_preset text then
    let choice := ToLower text in
    let u := set_Choice choice u in
    match index (Data u) choice with
    | Some existing => (u, (reply_known choice existing, false, false))
    | None =>
        let u := set_State StateTypingReply u in
        (u, (reply_unknown choice, false, false))
    end
  else if decide (text = "Something else...") then
    let u := set_State StateTypingChoice u in
    (u, ("Alright, please send me the category first, for example "
           +:+ dquote +:+ "Most impressive skill" +:+ dquote, false, false))
  else
    (u, ("Please choose one of the options on the keyboard or type "
           +:+ dquote +:+ "Done" +:+ dquote +:+ ".", true, false)).

Definition handleTypingChoice (u : UserState) (text : string) : UserState * answer :=
  let choice := ToLower text in
  let u := set_Choice choice u in
  match index (Data u) choice with
  | Some existing =>
      let u := set_State StateTypingReply u in
      (u, (reply_known choice existing, false, false))
  | None =>
      let u := set_State StateTypingReply u in
      (u, (reply_unknown choice, false, false))
  end.

Definition handleTypingReply (u : UserState) (text : string)
    (ord : list (string * string)) : result (UserState * answer) :=
  if decide (Choice u = "") then
    let u := set_State StateChoosing u in
    Ok (u, ("I am not sure what category this belongs to. Please choose one of the options.",
            true, false))
  else
    let category := Choice u in
    let value := ToLower text in
    data ←ᵣ assign (Data u) category value;
    let u := set_Data data u in
    let u := set_Choice "" u in
    let u := set_State StateChoosing u in
    let reply :=
      "Neat! Just so you know, this is what you already told me:" +:+
      factsToStr (Data u) ord +:+
      "You can tell me more, or change your opinion on something." in
    Ok (u, (reply, true, false)).

Definition HandleText (u : UserState) (text : string)
    (ord : list (string * string)) : result (UserState * answer) :=
  if decide (text = "Done") then
    let u := set_Choice "" u in
    let reply :=
      "I learned these facts about you: " +:+ factsToStr (Data u) ord +:+
      "Until next time!" in
    let u := set_State "" u in
    Ok (u, (reply, false, true))
  else if decide (State u = StateChoosing) then Ok (handleChoosing u text)
  else if decide (State u = StateTypingChoice) then Ok (handleTypingChoice u text)
  else if decide (State u = StateTypingReply) then handleTypingReply u text ord
  else
    let u := set_State StateChoosing u in
    Ok (handleChoosing u text).

(** *** The routing of [handleMessage]

    The gateway hands over either a command or plain text.  [respond] is
    the body of [handleMessage] between the lookup of the session and the
    call of the Telegram API: it yields the updated session and, unless the
    message is dropped, the reply with its keyboard markup. *)

Inductive body : Type :=
  | Command (name : string)
  | Text (text : string).

Inductive markup : Type :=
  | NoMarkup
  | MainKeyboard
  | RemoveKeyboard.

Definition markup_of (removeKeyboard withKeyboard : bool) : markup :=
  if removeKeyboard then RemoveKeyboard
  else if withKeyboard then MainKeyboard
  else NoMarkup.

Definition outgoing (reply : string) (removeKeyboard withKeyboard : bool)
    : option (string * markup) :=
  if decide (reply = "") then None
  else Some (reply, markup_of removeKeyboard withKeyboard).

Definition respond (u : UserState) (b : body)
    (ord : list (string * string))
    : result (UserState * option (string * markup)) :=
  match b with
  | Command name =>
      if decide (name = "start") then
        let '(u, reply) := HandleCommandStart u ord in
        Ok (u, outgoing reply false true)
      else if decide (name = "show_data") then
        let '(u, reply) := HandleShowData u ord in
        Ok (u, outgoing reply false false)
      else Ok (u, outgoing "Unknown command." false false)
  | Text text =>
      if decide (text = "") then Ok (u, None)
      else
        r ←ᵣ HandleText u text ord;
        let '(u, (reply, withKeyboard, done)) := r in
        let removeKeyboard := done in
        Ok (u, outgoing reply removeKeyboard withKeyboard)
  end.

(** *** Sequences of operations

    The three public operations of a session, each paired with the order
    its [range] loop (if it runs one) happens to take. *)

Inductive op : Type :=
  | OpStart
  | OpShowData
  | OpText (text : string).

Definition exec (u : UserState) (o : op) (ord : list (string * string))
    : result UserState :=
  match o with
  | OpStart => Ok (HandleCommandStart u ord).1
  | OpShowData => Ok (HandleShowData u ord).1
  | OpText text => r ←ᵣ HandleText u text ord; Ok r.1
  end.

Fixpoint run (u : UserState) (ops : list (op * list (string * string)))
    : result UserState :=
  match ops with
  | [] => Ok u
  | (o, ord) :: ops => u' ←ᵣ exec u o ord; run u' ops
  end.

Definition text_of (o : op) : option string :=
  match o with
  | OpText text => Some text
  | _ => None
  end.

End handlers.

(** ** Package [unicode/utf8] and [strconv] *)

Module Utf8.

(** The table [first] of package [utf8]: for a leading byte, the length of
    the encoding and the range its second byte must lie in. *)
Definition first (b0 : N) : option (nat * N * N) :=
  if (194 <=? b0)%N && (b0 <=? 223)%N then Some (2%nat, 128%N, 191%N)
  else if (b0 =? 224)%N then Some (3%nat, 160%N, 191%N)
  else if (b0 =? 237)%N then Some (3%nat, 128%N, 159%N)
  else if (225 <=? b0)%N && (b0 <=? 239)%N then Some (3%nat, 128%N, 191%N)
  else if (b0 =? 240)%N then Some (4%nat, 144%N, 191%N)
  else if (b0 =? 244)%N then Some (4%nat, 128%N, 143%N)
  else if (241 <=? b0)%N && (b0 <=? 243)%N then Some (4%nat, 128%N, 191%N)
  else None.

(** The rest of [s] after one byte in [lo..hi]. *)
Definition cont (lo hi : N) (s : string) : option string :=
  match s with
  | String c s' =>
      if (lo <=? N_of_ascii c)%N && (N_of_ascii c <=? hi)%N then Some s'
      else None
  | EmptyString => None
  end.

(** The width [utf8.DecodeRuneInString] reports for the rune at the front of
    [s]; [None] when it reports [RuneError] (of width 1, or 0 at the end). *)
Definition rune_len (s : string) : option nat :=
  match s with
  | EmptyString => None
  | String c0 r =>
      if (N_of_ascii c0 <? 128)%N then Some 1%nat
      else
        match first (N_of_ascii c0) with
        | None => None
        | Some (sz, lo, hi) =>
            r1 ← cont lo hi r;
            if decide (sz = 2%nat) then Some 2%nat
            else
              r2 ← cont 128 191 r1;
              if decide (sz = 3%nat) then Some 3%nat
              else
                _ ← cont 128 191 r2;
                Some 4%nat
        end
  end.

(** U+FFFD in UTF-8. *)
Definition replacement : string := String "239" (String "191" (String "189" "")).

(** A Go string as [encoding/json] writes it: every byte that does not
    start a well-formed rune becomes U+FFFD.  [keep] counts the bytes still
    to copy of the rune being read. *)
Fixpoint coerce_from (keep : nat) (s : string) : string :=
  match s with
  | EmptyString => EmptyString
  | String c s' =>
      match keep with
      | S k => String c (coerce_from k s')
      | O =>
          match rune_len s with
          | Some n => String c (coerce_from (n - 1) s')
          | None => replacement +:+ coerce_from 0 s'
          end
      end
  end.

Definition coerce (s : string) : string := coerce_from 0 s.

(** [utf8.ValidString] *)
Fixpoint valid_from (keep : nat) (s : string) : bool :=
  match s with
  | EmptyString => true
  | String c s' =>
      match keep with
      | S k => valid_from k s'
      | O =>
          match rune_len s with
          | Some n => valid_from (n - 1) s'
          | None => false
          end
      end
  end.

Definition ValidString (s : string) : bool := valid_from 0 s.

End Utf8.
Import Utf8.

Module Strconv.

(** [strconv.FormatInt(k, 10)] *)
Definition FormatInt (k : Z) : string := pretty k.

Definition digit (c : ascii) : option Z :=
  if byte_in "0" "9" c then Some (Z.of_N (N_of_ascii c) - 48) else None.

Fixpoint digits (acc : Z) (s : string) : option Z :=
  match s with
  | EmptyString => Some acc
  | String c s' => d ← digit c; digits (10 * acc + d) s'
  end.

Definition unsigned (s : string) : option Z :=
  if decide (s = "") then None else digits 0 s.

(** [strconv.ParseInt(s, 10, 64)]; [None] for [ErrSyntax] and [ErrRange]. *)
Definition ParseInt (s : string) : option Z :=
  v ← match s with
      | String "+" r => unsigned r
      | String "-" r => Z.opp <$> unsigned r
      | _ => unsigned s
      end;
  if decide (- 2 ^ 63 ≤ v < 2 ^ 63) then Some v else None.

End Strconv.
Import Strconv.

(** ** Package [encoding/json]

    A JSON document is kept as a tree.  How the tree is spelled out in a
    file (white space, indentation, escapes) is left to [Syntax]; what the
    program's types contribute, namely which Go value becomes which tree and
    back, is written out below. *)

Module Json.

#[local] Set Warnings "-register-all".

Inductive value : Type :=
  | JNull
  | JBool (b : bool)
  | JNumber (lit : string)
  | JString (s : string)
  | JArray (elems : list value)
  | JObject (fields : list (string * value)).

(** The documents the encoder can produce for the types of this program:
    nulls, strings coerced to valid UTF-8, and objects of these. *)
Fixpoint printed (j : value) : Prop :=
  match j with
  | JNull => True
  | JString s => ∃ s0, s = coerce s0
  | JObject fields =>
      (fix all (l : list (string * value)) : Prop :=
         match l with
         | [] => True
         | (k, v) :: l => (∃ k0, k = coerce k0) ∧ printed v ∧ all l
         end) fields
  | _ => False
  end.

(** The concrete syntax: [render] prints a document the way
    [json.MarshalIndent(v, "", "  ")] does, [scan] reads one back and is
    [None] where [json.Unmarshal] reports a [SyntaxError].  Reading back
    what was printed gives the document that was printed. *)
Class Syntax := {
  text : Type;
  render : value → text;
  scan : text → option value;
  scan_render : ∀ j, printed j → scan (render j) = Some j;
}.

Inductive error : Type :=
  | ErrNotExist
  | IOError (what : string)
  | SyntaxError
  | UnmarshalTypeError (want : string).

Inductive except (A : Type) : Type :=
  | Val (a : A)
  | Err (e : error).
Arguments Val {A} a.
Arguments Err {A} e.

Definition ebind {A B} (m : except A) (k : A → except B) : except B :=
  match m with
  | Val a => k a
  | Err e => Err e
  end.

Notation "x ←ₑ m ; k" := (ebind m (λ x, k))
  (at level 100, m at next level, k at level 200, right associativity).

(** Decoding the members of an object one after the other; the first error
    is the one reported. *)
Fixpoint foldM {A B} (f : A → B → except A) (a : A) (l : list B) : except A :=
  match l with
  | [] => Val a
  | b :: l => a' ←ₑ f a b; foldM f a' l
  end.

(** *** Encoding *)

Definition by_key {V} (a b : string * V) : Prop := String.le a.1 b.1.

#[export] Instance by_key_dec {V} (a b : string * V) : Decision (by_key a b).
Proof. unfold by_key. apply _. Defined.

(** A map becomes an object whose members are sorted by key; [name] turns
    a key into its text. *)
Definition encMap {K V} `{Countable K} (name : K → string) (enc : V → value)
    (m : gomap K V) : value :=
  match m with
  | None => JNull
  | Some g =>
      let sv := (λ kv : K * V, (name kv.1, kv.2)) <$> map_to_list g in
      let sv := merge_sort by_key sv in
      JObject ((λ kv : string * V, (coerce kv.1, enc kv.2)) <$> sv)
  end.

Definition encString (s : string) : value := JString (coerce s).

(** [*UserState], with the field names of its struct tags. *)
Definition encUserState (p : option UserState) : value :=
  match p with
  | None => JNull
  | Some u =>
      JObject [("state", encString (State u));
               ("data", encMap id encString (Data u));
               ("choice", encString (Choice u))]
  end.

Record persistedData := mkPersisted {
  Users : gomap Z (option UserState);
}.

Definition encPersisted (d : persistedData) : value :=
  JObject [("users", encMap FormatInt encUserState (Users d))].

(** *** Decoding *)

Definition foldByte (c : ascii) : ascii :=
  if byte_in "a" "z" c then ascii_of_N (N_of_ascii c - 32) else c.

(** Whether the key of a member selects the field called [name]: an exact
    match or one under simple case folding.  [name] is one of the ASCII
    names of this program; the only runes outside ASCII that fold to an
    ASCII letter are U+017F (to S) and U+212A (to K). *)
Fixpoint fold_eq (name key : string) : bool :=
  match name, key with
  | EmptyString, EmptyString => true
  | String n name', String c key' =>
      if (N_of_ascii c <? 128)%N then
        bool_decide (foldByte n = foldByte c) && fold_eq name' key'
      else
        match key with
        | String "197" (String "191" rest) =>
            bool_decide (foldByte n = "S"%char) && fold_eq name' rest
        | String "226" (String "132" (String "170" rest)) =>
            bool_decide (foldByte n = "K"%char) && fold_eq name' rest
        | _ => false
        end
  | _, _ => false
  end.

Definition decString (j : value) (old : string) : except string :=
  match j with
  | JNull => Val old
  | JString s => Val s
  | _ => Err (UnmarshalTypeError "string")
  end.

(** Into a [map[string]string]: null makes it nil, an object fills the
    existing map (allocated if nil), each member from a fresh element. *)
Definition decData (j : value) (old : gomap string string)
    : except (gomap string string) :=
  match j with
  | JNull => Val None
  | JObject fields =>
      g ←ₑ foldM (λ g kv, v ←ₑ decString kv.2 ""; Val (<[kv.1:=v]> g))
             (entries old) fields;
      Val (Some g)
  | _ => Err (UnmarshalTypeError "map[string]string")
  end.

Definition decField (u : UserState) (kv : string * value) : except UserState :=
  if fold_eq "state" kv.1 then
    s ←ₑ decString kv.2 (State u); Val (set_State s u)
  else if fold_eq "data" kv.1 then
    d ←ₑ decData kv.2 (Data u); Val (set_Data d u)
  else if fold_eq "choice" kv.1 then
    c ←ₑ decString kv.2 (Choice u); Val (set_Choice c u)
  else Val u.

Definition zeroUserState : UserState :=
  {| State := ""; Data := None; Choice := "" |}.

(** Into a nil [*UserState]: null leaves it nil, an object allocates. *)
Definition decUserState (j : value) : except (option UserState) :=
  match j with
  | JNull => Val None
  | JObject fields => u ←ₑ foldM decField zeroUserState fields; Val (Some u)
  | _ => Err (UnmarshalTypeError "main.UserState")
  end.

Definition decKey (k : string) : except Z :=
  match ParseInt k with
  | Some id => Val id
  | None => Err (UnmarshalTypeError "int64")
  end.

Definition decUsers (j : value) (old : gomap Z (option UserState))
    : except (gomap Z (option UserState)) :=
  match j with
  | JNull => Val None
  | JObject fields =>
      g ←ₑ foldM (λ g kv, p ←ₑ decUserState kv.2; id ←ₑ decKey kv.1;
                          Val (<[id:=p]> g))
             (entries old) fields;
      Val (Some g)
  | _ => Err (UnmarshalTypeError "map[int64]*main.UserState")
  end.

Definition decPersisted (j : value) (old : persistedData) : except persistedData :=
  match j with
  | JNull => Val old
  | JObject fields =>
      foldM (λ d kv,
               if fold_eq "users" kv.1 then
                 us ←ₑ decUsers kv.2 (Users d); Val {| Users := us |}
               else Val d)
            old fields
  | _ => Err (UnmarshalTypeError "main.persistedData")
  end.

Section codec.
Context `{Syntax}.

(** [json.MarshalIndent(&data, "", "  ")]; it has no error to report for
    a [persistedData]. *)
Definition MarshalIndent (d : persistedData) : text := render (encPersisted d).

(** [json.Unmarshal(b, &data)] *)
Definition Unmarshal (b : text) (data : persistedData) : except persistedData :=
  match scan b with
  | None => Err SyntaxError
  | Some j => decPersisted j data
  end.

End codec.

(** A syntax in which a file holds a document as it is, or something that
    does not scan; it serves to evaluate the storage on concrete inputs. *)
#[export] Program Instance plain_syntax : Syntax := {|
  text := option value;
  render := Some;
  scan := λ b, b;
|}.
Next Obligation. done. Qed.

End Json.
Import Json.

(** ** Storage *)

Module Os.
Section os.
Context {text : Type}.

(** The files of the machine, by path.  A call may also fail for a reason
    outside the model (permissions, a full disk): [fault] names it. *)
Definition ReadFile (fs : gmap string text) (name : string)
    (fault : option string) : except text :=
  match fault with
  | Some what => Err (IOError what)
  | None =>
      match fs !! name with
      | Some b => Val b
      | None => Err ErrNotExist
      end
  end.

(** A failed write may leave [partial] behind at [name]. *)
Definition WriteFile (fs : gmap string text) (name : string) (b : text)
    (fault : option (string * option text)) : gmap string text * option error :=
  match fault with
  | Some (what, Some partial) => (<[name:=partial]> fs, Some (IOError what))
  | Some (what, None) => (fs, Some (IOError what))
  | None => (<[name:=b]> fs, None)
  end.

Definition Rename (fs : gmap string text) (oldpath newpath : string)
    (fault : option string) : gmap string text * option error :=
  match fault with
  | Some what => (fs, Some (IOError what))
  | None =>
      match fs !! oldpath with
      | Some b => (<[newpath:=b]> (delete oldpath fs), None)
      | None => (fs, Some ErrNotExist)
      end
  end.

(** [errors.Is(err, os.ErrNotExist)] *)
Definition IsNotExist (err : error) : bool :=
  match err with
  | ErrNotExist => true
  | _ => false
  end.

End os.
End Os.
Import Os.

Record Storage := mkStorage {
  path : string;
}.

Definition NewStorage (path : string) : Storage := {| path := path |}.

Section storage.
Context `{Syntax}.

(** [Load] returns [(users, err)]; the mutex is not modelled, calls do
    not overlap here. *)
Definition Load (s : Storage) (fs : gmap string text) (fault : option string)
    : gomap Z (option UserState) * option error :=
  let data := {| Users := Some ∅ |} in
  match ReadFile fs (path s) fault with
  | Err err =>
      if IsNotExist err then (Users data, None)
      else (None, Some err)
  | Val b =>
      match Unmarshal b data with
      | Err err => (None, Some err)
      | Val data =>
          let data :=
            if decide (Users data = None) then {| Users := Some ∅ |} else data in
          (Users data, None)
      end
  end.

Definition Save (s : Storage) (fs : gmap string text)
    (users : gomap Z (option UserState))
    (wfault : option (string * option text)) (rfault : option string)
    : gmap string text * option error :=
  let data := {| Users := users |} in
  let b := MarshalIndent data in
  let tmpPath := path s +:+ ".tmp" in
  match WriteFile fs tmpPath b wfault with
  | (fs, Some err) => (fs, Some err)
  | (fs, None) => Rename fs tmpPath (path s) rfault
  end.

End storage.

(** ** The bot *)

Record Message := mkMessage {
  From : option Z;
  Chat : Z;
  Body : body;
}.

Section bot.
Context `{Unicode} `{Syntax}.

(** The Telegram API is represented by the messages handed to [Send]. *)
Record Bot := mkBot {
  storage : Storage;
  users : gomap Z (option UserState);
  disk : gmap string text;
  sent : list (Z * string * markup);
}.

Definition NewBot (storage : Storage) (fs : gmap string text)
    (fault : option string) : except Bot :=
  match Load storage fs fault with
  | (_, Some err) => Err err
  | (users, None) =>
      Val {| storage := storage; users := users; disk := fs; sent := [] |}
  end.

(** The session of [userID] and the registry once it is in there. *)
Definition getUserState (users : gomap Z (option UserState)) (userID : Z)
    : UserState * gomap Z (option UserState) :=
  let users := if decide (users = None) then Some ∅ else users in
  match index users userID with
  | Some (Some us) => (us, users)
  | _ =>
      let us := NewUserState in
      (us, Some (<[userID:=Some us]> (entries users)))
  end.

(** The handlers work on the session through its pointer: what they change
    is what the registry holds afterwards.  An error of [Save] is logged and
    otherwise ignored. *)
Definition handleMessage (b : Bot) (msg : Message)
    (ord : list (string * string))
    (wfault : option (string * option text)) (rfault : option string)
    : result Bot :=
  match From msg with
  | None => Ok b
  | Some userID =>
      let '(userState, users) := getUserState (users b) userID in
      r ←ᵣ respond userState (Body msg) ord;
      let '(userState, out) := r in
      let users := Some (<[userID:=Some userState]> (entries users)) in
      match out with
      | None =>
          Ok {| storage := storage b; users := users; disk := disk b;
                sent := sent b |}
      | Some (reply, keyboard) =>
          let sent := sent b ++ [(Chat msg, reply, keyboard)] in
          let '(disk, _) := Save (storage b) (disk b) users wfault rfault in
          Ok {| storage := storage b; users := users; disk := disk;
                sent := sent |}
      end
  end.

End bot.

(** ** The keyboard and the update loop *)

(** The reply keyboard of the Telegram API, as far as the program sets
    it: the rows of button labels and the one-time flag. *)
Record ReplyKeyboardMarkup := mkKeyboard {
  Keyboard : list (list string);
  OneTimeKeyboard : bool;
}.

Definition mainKeyboard : ReplyKeyboardMarkup :=
  {| Keyboard := [["Age"; "Favourite colour"];
                  ["Number of siblings"; "Something else..."];
                  ["Done"]];
     OneTimeKeyboard := true |}.

Section loop.
Context `{Unicode} `{Syntax}.

(** [Bot.save]: the registry is written out; an error is logged only. *)
Definition save (b : Bot)
    (wfault : option (string * option text)) (rfault : option string) : Bot :=
  let '(disk, _) := Save (storage b) (disk b) (users b) wfault rfault in
  {| storage := storage b; users := users b; disk := disk; sent := sent b |}.

(** What the environment decides while one update is handled: the order of
    the [range] loop and the faults of the two file operations of [Save]. *)
Definition choices : Type :=
  list (string * string) * option (string * option text) * option string.

(** [Bot.Run] over the updates the channel delivers until it is closed; an
    update may carry no message.  [Run] itself returns no error: the result
    is the bot when the loop ends, or the panic of a handler. *)
Fixpoint Run (b : Bot) (updates : list (option Message * choices))
    : result Bot :=
  match updates with
  | [] => Ok b
  | (None, _) :: updates => Run b updates
  | (Some msg, (ord, wfault, rfault)) :: updates =>
      b' ←ᵣ handleMessage b msg ord wfault rfault;
      Run b' updates
  end.

End loop.

(** * Vocabulary of the properties *)

(** ** What a text does to the session

    The effect of [HandleText] on the session, branch by branch; the
    properties of whole conversations are proved from it. *)

Section vocabulary.
Context `{Unicode}.

Inductive transition (u : UserState) (text : string) : UserState → Prop :=
  | t_done :
      text = "Done" →
      transition u text {| State := ""; Data := Data u; Choice := "" |}
  | t_known :
      text ≠ "Done" → State u ≠ StateTypingChoice → State u ≠ StateTypingReply →
      is_preset text = true → is_Some (index (Data u) (ToLower text)) →
      transition u text
        {| State := StateChoosing; Data := Data u; Choice := ToLower text |}
  | t_fresh :
      text ≠ "Done" → State u ≠ StateTypingChoice → State u ≠ StateTypingReply →
      is_preset text = true → index (Data u) (ToLower text) = None →
      transition u text
        {| State := StateTypingReply; Data := Data u; Choice := ToLower text |}
  | t_custom :
      text = "Something else..." →
      State u ≠ StateTypingChoice → State u ≠ StateTypingReply →
      transition u text
        {| State := StateTypingChoice; Data := Data u; Choice := Choice u |}
  | t_other :
      text ≠ "Done" → text ≠ "Something else..." → is_preset text = false →
      State u ≠ StateTypingChoice → State u ≠ StateTypingReply →
      transition u text
        {| State := StateChoosing; Data := Data u; Choice := Choice u |}
  | t_category :
      text ≠ "Done" → State u = StateTypingChoice →
      transition u text
        {| State := StateTypingReply; Data := Data u; Choice := ToLower text |}
  | t_lost :
      text ≠ "Done" → State u = StateTypingReply → Choice u = "" →
      transition u text
        {| State := StateChoosing; Data := Data u; Choice := Choice u |}
  | t_value g :
      text ≠ "Done" → State u = StateTypingReply → Choice u ≠ "" →
      Data u = Some g →
      transition u text
        {| State := StateChoosing;
           Data := Some (<[Choice u:=ToLower text]> g);
           Choice := "" |}.

(** The one call that writes to the facts. *)
Definition stores (u : UserState) (text : string) : Prop :=
  State u = StateTypingReply ∧ Choice u ≠ "" ∧ text ≠ "Done".

#[export] Instance stores_dec u text : Decision (stores u text).
Proof. unfold stores. apply _. Defined.

(** What holds of [Choice] in every session a conversation can reach. *)
Definition pending_known (u : UserState) : Prop :=
  State u = StateTypingReply → Choice u ≠ "".

Definition nonempty_text (p : op * list (string * string)) : Prop :=
  text_of p.1 ≠ Some "".

(** The texts of a sequence of operations. *)
Definition texts (ops : list (op * list (string * string))) : list string :=
  omap (λ p, text_of p.1) ops.

(** The texts of a conversation in the order they were sent, each with
    the session that [HandleText] found. *)
Fixpoint history (u : UserState) (ops : list (op * list (string * string)))
    : list (UserState * string) :=
  match ops with
  | [] => []
  | (o, ord) :: ops =>
      match exec u o ord with
      | Ok u' => (match text_of o with
                  | Some t => [(u, t)]
                  | None => []
                  end) ++ history u' ops
      | Panic _ => []
      end
  end.

(** [text] is a category text: the session takes it as the name of a
    category, being a preset label sent while choosing or any text sent in
    answer to "Something else...". *)
Definition names_category (u : UserState) (text : string) : Prop :=
  text ≠ "Done"
  ∧ (State u = StateTypingChoice
     ∨ (State u ≠ StateTypingReply ∧ is_preset text = true)).

(** The category [k] was asked for in the conversation [h]: it is the
    lower-cased form of a category text. *)
Definition asked (h : list (UserState * string)) (k : string) : Prop :=
  ∃ i uc c, h !! i = Some (uc, c) ∧ names_category uc c ∧ k = ToLower c.

(** The fact [k] - [v] was told in the conversation [h]: [k] is the
    lower-cased form of a category text [c], and [v] the lower-cased form of
    a value text [t], one sent after [c] and stored while the category of [c]
    was pending. *)
Definition told (h : list (UserState * string)) (k v : string) : Prop :=
  ∃ i j uc c ut t,
    (i < j)%nat
    ∧ h !! i = Some (uc, c) ∧ names_category uc c ∧ k = ToLower c
    ∧ h !! j = Some (ut, t) ∧ stores ut t ∧ Choice ut = k ∧ v = ToLower t.

(** The "lower-cased, trimmed" form that the written specification gives
    to keys and values.  The program has no trimming step; [trim] removes
    the white space at both ends, for comparison with what the program
    stores. *)
Fixpoint trim_left (s : string) : string :=
  match s with
  | String c s' => if Ascii.is_space c then trim_left s' else s
  | EmptyString => EmptyString
  end.

Definition trim (s : string) : string :=
  String.rev (trim_left (String.rev (trim_left s))).

Definition lowercased_trimmed (s : string) : string := ToLower (trim s).

End vocabulary.

(** ** Well-formed collections *)

(** Every string of the session is valid UTF-8. *)
Definition valid_session (u : UserState) : Prop :=
  ValidString (State u) = true ∧ ValidString (Choice u) = true
  ∧ ∀ k v, index (Data u) k = Some v →
           ValidString k = true ∧ ValidString v = true.

Definition valid_collection (users : gomap Z (option UserState)) : Prop :=
  ∀ id u, index users id = Some (Some u) → valid_session u.

(** The keys are [int64] values. *)
Definition int64_keys (users : gomap Z (option UserState)) : Prop :=
  ∀ id p, index users id = Some p → - 2 ^ 63 ≤ id < 2 ^ 63.

(** ** Sessions and disks for the examples *)

(** The reply of [handleTypingReply] when no category is pending. *)
Definition guidance : string :=
  "I am not sure what category this belongs to. Please choose one of the options.".

(** A session that knows two facts. *)
Definition two_facts : UserState :=
  {| State := StateTypingChoice;
     Data := Some (<["age":="30"]> (<["favourite colour":="red"]> ∅));
     Choice := "" |}.

(** The same session after "Done". *)
Definition terminated : UserState :=
  {| State := ""; Data := Data two_facts; Choice := "" |}.

(** A session in "typing_reply" that has lost its category. *)
Definition stuck_typing : UserState :=
  {| State := StateTypingReply; Data := Some ∅; Choice := "" |}.

(** A session that awaits the value for "age". *)
Definition awaiting_age : UserState :=
  {| State := StateTypingReply; Data := Some ∅; Choice := "age" |}.

(** A session restored from a snapshot that has no "data" member. *)
Definition without_facts : UserState :=
  {| State := StateTypingReply; Data := None; Choice := "age" |}.

(** A conversation whose custom category starts with a blank. *)
Definition blank_category : list (op * list (string * string)) :=
  [(OpText "Something else...", []); (OpText " Age", []);
   (OpText "30", [(" age", "30")])].

(** A collection of one user. *)
Definition one_user : gomap Z (option UserState) :=
  Some {[ 42 := Some {| State := StateChoosing;
                        Data := Some {[ "age" := "30" ]};
                        Choice := "" |} ]}.

(** A disk whose snapshot does not scan. *)
Definition garbled_disk : gmap string (@text plain_syntax) :=
  {[ "conversationbot.json" := (None : @text plain_syntax) ]}.

(** A disk whose snapshot is a JSON array. *)
Definition misfit_disk : gmap string (@text plain_syntax) :=
  {[ "conversationbot.json" := (Some (JArray []) : @text plain_syntax) ]}.

(** A disk whose snapshot holds user 7 without a "data" member. *)
Definition dataless_disk : gmap string (@text plain_syntax) :=
  {[ "conversationbot.json" :=
       (Some (JObject [("users", JObject [("7", JObject
                [("state", JString "typing_reply");
                 ("choice", JString "age")])])])
        : @text plain_syntax) ]}.

(** A text that is not valid UTF-8: the single byte 0xFF. *)
Definition stray_byte : string := String "255" "".

(** A collection whose one user has that text as a fact. *)
Definition stray_user : gomap Z (option UserState) :=
  Some {[ 1 := Some {| State := StateChoosing;
                       Data := Some {[ "name" := stray_byte ]};
                       Choice := "" |} ]}.

(** The fact stored under "name" for user 1. *)
Definition name_of_user_1 (users : gmap Z (option UserState)) : option string :=
  p ← users !! 1; u ← p; index (Data u) "name".

(** ** Vocabulary of the further properties *)

(** The reply of [handleChoosing] to a text it does not recognise. *)
Definition fallback : string :=
  "Please choose one of the options on the keyboard or type "
    +:+ dquote +:+ "Done" +:+ dquote +:+ ".".

(** The labels on the buttons of the main keyboard. *)
Definition buttons : list string := concat (Keyboard mainKeyboard).

(** The four values [State] takes once a text has been handled. *)
Definition known_state (s : string) : Prop :=
  s = "" ∨ s = StateChoosing ∨ s = StateTypingChoice ∨ s = StateTypingReply.

(** The sessions [HandleText] treats as choosing: those in "choosing", and
    those whose state is none of the three named ones. *)
Definition choosing (u : UserState) : Prop :=
  State u ≠ StateTypingChoice ∧ State u ≠ StateTypingReply.

(** Whether an update carries a message sent by [id]. *)
Definition sent_by {E : Type} (id : Z) (upd : option Message * E) : bool :=
  match upd.1 with
  | Some msg => bool_decide (From msg = Some id)
  | None => false
  end.

(** Every session of the registry has its facts map allocated. *)
Definition allocated (users : gomap Z (option UserState)) : Prop :=
  ∀ id u, index users id = Some (Some u) → Data u ≠ None.

(** A document that names no users: it is null, or an object in which
    every member that selects the field "users" is null; an object with no
    such member is one of these. *)
Definition no_users (j : value) : bool :=
  match j with
  | JNull => true
  | JObject fields =>
      forallb (λ kv : string * value,
                 negb (fold_eq "users" kv.1)
                 || match kv.2 with JNull => true | _ => false end)
              fields
  | _ => false
  end.

(** A disk whose snapshot is an object without "users". *)
Definition userless_disk : gmap string (@text plain_syntax) :=
  {[ "conversationbot.json" :=
       (Some (JObject [("version", JString "1")]) : @text plain_syntax) ]}.

(** A session restored with a state the program does not name. *)
Definition paused : UserState :=
  {| State := "paused"; Data := Data two_facts; Choice := "" |}.

(** A disk whose snapshot has "users" set to null. *)
Definition null_users_disk : gmap string (@text plain_syntax) :=
  {[ "conversationbot.json" :=
       (Some (JObject [("users", JNull)]) : @text plain_syntax) ]}.

(** A bot that holds one user, with nothing on disk and nothing sent. *)
Definition one_user_bot : @Bot plain_syntax :=
  {| storage := NewStorage "conversationbot.json"; users := one_user;
     disk := ∅; sent := [] |}.

Definition show_data_from_42 : Message :=
  {| From := Some 42; Chat := 42; Body := Command "show_data" |}.

Definition empty_text_from_7 : Message :=
  {| From := Some 7; Chat := 7; Body := Text "" |}.

Definition anonymous_text : Message :=
  {| From := None; Chat := 7; Body := Text "Age" |}.

(** [one_user_bot] once it has answered [show_data_from_42]. *)
Definition one_user_bot_answered : @Bot plain_syntax :=
  {| storage := NewStorage "conversationbot.json"; users := one_user;
     disk := {[ "conversationbot.json" :=
                  MarshalIndent {| Users := one_user |} ]};
     sent := [(42, "This is what you already told me: "
                     +:+ factsToStr (Some {[ "age" := "30" ]}) [("age", "30")],
               NoMarkup)] |}.

(** Two users write in turn; one update carries no message. *)
Definition small_talk : list (option Message * @choices plain_syntax) :=
  [ (Some {| From := Some 42; Chat := 42; Body := Text "Favourite colour" |},
     ([("age", "30")], None, None));
    (Some {| From := Some 7; Chat := 7; Body := Command "start" |},
     ([], None, None));
    (None, ([], None, None));
    (Some {| From := Some 42; Chat := 42; Body := Text "Blue" |},
     ([("age", "30"); ("favourite colour", "blue")], None, None)) ].

(** A disk on which nothing can be written. *)
Definition full_disk : option (string * option (@text plain_syntax)) :=
  Some ("no space left on device", None).

(** [one_user_bot] once it has answered [show_data_from_42] while nothing
    could be written. *)
Definition one_user_bot_unsaved : @Bot plain_syntax :=
  {| storage := NewStorage "conversationbot.json"; users := one_user;
     disk := ∅; sent := sent one_user_bot_answered |}.

(** [one_user_bot] at the end of [small_talk]. *)
Definition after_small_talk : @Bot plain_syntax :=
  let users : gomap Z (option UserState) :=
    Some {[ 42 := Some {| State := StateChoosing;
                          Data := Some {[ "age" := "30";
                                          "favourite colour" := "blue" ]};
                          Choice := "" |};
            7 := Some NewUserState ]} in
  {| storage := NewStorage "conversationbot.json"; users := users;
     disk := {[ "conversationbot.json" := MarshalIndent {| Users := users |} ]};
     sent := [ (42, "Your favourite colour? Yes, I would love to hear about that!",
                NoMarkup);
               (7, "Hi! My name is Doctor Botter. I will hold a more complex conversation with you. Why don't you tell me something about yourself?",
                MainKeyboard);
               (42, "Neat! Just so you know, this is what you already told me:"
                      +:+ factsToStr
                            (Some {[ "age" := "30";
                                     "favourite colour" := "blue" ]})
                            [("age", "30"); ("favourite colour", "blue")]
                      +:+ "You can tell me more, or change your opinion on something.",
                MainKeyboard) ] |}.

(** * Properties *)

(** Closes a goal whose hypotheses put the session in two states at once. *)
Ltac state_clash :=
  unfold StateChoosing, StateTypingReply, StateTypingChoice in *;
  first [ done | congruence ].

(** ** Strings *)

Section string_facts.

Lemma append_nil_r (s : string) : s +:+ "" = s.
Proof.
  induction s as [|c s IH]; [done|].
  change (String c (s +:+ "") = String c s). by rewrite IH.
Qed.

Lemma append_assoc (a b c : string) : (a +:+ b) +:+ c = a +:+ b +:+ c.
Proof.
  induction a as [|x a IH]; [done|].
  change (String x ((a +:+ b) +:+ c) = String x (a +:+ b +:+ c)).
  by rewrite IH.
Qed.

Lemma Contains_refl (s : string) : Contains s s.
Proof. exists "", "". by rewrite append_nil_r. Qed.

Lemma Contains_app_l (a b sub : string) : Contains a sub → Contains (a +:+ b) sub.
Proof.
  intros (pre & post & ->). exists pre, (post +:+ b).
  by rewrite !append_assoc.
Qed.

Lemma Contains_app_r (a b sub : string) : Contains b sub → Contains (a +:+ b) sub.
Proof.
  intros (pre & post & ->). exists (a +:+ pre), post.
  by rewrite !append_assoc.
Qed.

Lemma Contains_trans (a b c : string) : Contains a b → Contains b c → Contains a c.
Proof.
  intros (p1 & q1 & ->) (p2 & q2 & ->). exists (p1 +:+ p2), (q2 +:+ q1).
  by rewrite !append_assoc.
Qed.

Lemma Contains_Join (elems : list string) (sep x : string) :
  x ∈ elems → Contains (Join elems sep) x.
Proof.
  unfold Join. induction elems as [|y [|z elems] IH]; intros Hx.
  - by apply elem_of_nil in Hx.
  - apply list_elem_of_singleton in Hx as ->. apply Contains_refl.
  - apply elem_of_cons in Hx as [->|Hx].
    + change (Contains (y +:+ sep +:+ String.concat sep (z :: elems)) y).
      apply Contains_app_l, Contains_refl.
    + change (Contains (y +:+ sep +:+ String.concat sep (z :: elems)) x).
      apply Contains_app_r, Contains_app_r, IH, Hx.
Qed.

End string_facts.

Lemma append_nonempty (a b : string) : a ≠ "" → a +:+ b ≠ "".
Proof. destruct a as [|c a]; [done|]. intros _. discriminate. Qed.

Lemma mapBytes_nonempty (f : ascii → ascii) (s : string) :
  s ≠ "" → mapBytes f s ≠ "".
Proof. destruct s; [done|]. intros _. discriminate. Qed.

Lemma ToLower_nonempty `{Unicode} (s : string) : s ≠ "" → ToLower s ≠ "".
Proof.
  intros Hs. unfold ToLower. destruct (isASCII s).
  - by apply mapBytes_nonempty.
  - by apply MapToLower_nonempty.
Qed.

(** ** Maps *)

Section gomap_facts.
Context {K V : Type} `{Countable K}.

Lemma ranges_elem_of (m : gomap K V) (ord : list (K * V)) (k : K) (v : V) :
  ranges m ord → (k, v) ∈ ord ↔ index m k = Some v.
Proof.
  unfold ranges, index. intros ->. apply elem_of_map_to_list.
Qed.

Lemma ranges_length (m : gomap K V) (ord : list (K * V)) :
  ranges m ord → length ord = len m.
Proof.
  unfold ranges, len. intros ->. by rewrite length_map_to_list.
Qed.


Lemma len_pos_index (m : gomap K V) (k : K) (v : V) :
  index m k = Some v → (0 < len m)%nat.
Proof.
  unfold index, len. intros Hk.
  destruct (decide (size (entries m) = 0%nat)) as [Hz|]; [|lia].
  apply map_size_empty_iff in Hz. rewrite Hz in Hk. by rewrite lookup_empty in Hk.
Qed.

End gomap_facts.

(** ** The dialogue state machine *)

Section session_facts.
Context `{Unicode}.

Lemma is_preset_cases (text : string) :
  is_preset text = true ↔
  text = "Age" ∨ text = "Favourite colour" ∨ text = "Number of siblings".
Proof.
  unfold is_preset. rewrite !orb_true_iff, !bool_decide_eq_true. tauto.
Qed.

Lemma is_preset_lower (text : string) :
  is_preset text = true →
  text ≠ "Done" ∧ text ≠ "" ∧ ToLower text ≠ "" ∧
  (ToLower text = "age" ∨ ToLower text = "favourite colour"
   ∨ ToLower text = "number of siblings").
Proof.
  intros [-> | [-> | ->]]%is_preset_cases; (repeat split; [done|done|done|]);
    vm_compute; tauto.
Qed.

Lemma fact_line_in_factsToStr (data : gomap string string)
    (ord : list (string * string)) (k v : string) :
  ranges data ord → index data k = Some v →
  Contains (factsToStr data ord) (k +:+ " - " +:+ v).
Proof.
  intros Hord Hk. unfold factsToStr.
  destruct (decide (len data = 0%nat)) as [Hz|_].
  { apply len_pos_index in Hk. lia. }
  apply Contains_app_r, Contains_app_l, Contains_Join.
  apply (list_elem_of_fmap_2 fact_line _ (k, v)).
  by apply (ranges_elem_of data).
Qed.

(** [C2] Whatever the state of the session, the text "Done" is handled
    before any state-specific code: [HandleText] clears [Choice], sets
    [State] to the empty string (the terminated state), keeps the facts,
    and returns [done = true] with a reply that opens with "I learned these
    facts about you", lists every known fact as a "key - value" line and
    closes with the farewell; [handleMessage] then sends that reply with the
    keyboard removed. *)
Theorem done_terminates_from_every_state (u : UserState)
    (ord : list (string * string)) :
  ranges (Data u) ord →
  ∃ reply u',
    HandleText u "Done" ord = Ok (u', (reply, false, true))
    ∧ respond u (Text "Done") ord = Ok (u', Some (reply, RemoveKeyboard))
    ∧ Choice u' = "" ∧ State u' = "" ∧ Data u' = Data u
    ∧ reply = "I learned these facts about you: " +:+ factsToStr (Data u) ord
                +:+ "Until next time!"
    ∧ Contains reply "I learned these facts about you"
    ∧ (∀ k v, index (Data u) k = Some v → Contains reply (k +:+ " - " +:+ v)).
Proof.
  intros Hord.
  eexists _, {| State := ""; Data := Data u; Choice := "" |}.
  split_and!; try reflexivity.
  - by exists "", (": " +:+ factsToStr (Data u) ord +:+ "Until next time!").
  - intros k v Hk. apply Contains_app_r, Contains_app_l.
    by apply fact_line_in_factsToStr.
Qed.

Lemma two_facts_ranges :
  ranges (Data two_facts) [("favourite colour", "red"); ("age", "30")].
Proof. unfold ranges. vm_compute map_to_list. apply Permutation_swap. Qed.

End session_facts.

Lemma done_terminates_witness :
  ranges (Data two_facts) [("favourite colour", "red"); ("age", "30")]
  ∧ ∃ reply u',
      HandleText two_facts "Done" [("favourite colour", "red"); ("age", "30")]
        = Ok (u', (reply, false, true))
      ∧ respond two_facts (Text "Done") [("favourite colour", "red"); ("age", "30")]
        = Ok (u', Some (reply, RemoveKeyboard))
      ∧ Choice u' = "" ∧ State u' = "" ∧ Data u' = Data two_facts
      ∧ reply = "I learned these facts about you: "
                +:+ factsToStr (Data two_facts)
                      [("favourite colour", "red"); ("age", "30")]
                +:+ "Until next time!"
      ∧ Contains reply "I learned these facts about you"
      ∧ (∀ k v, index (Data two_facts) k = Some v →
                Contains reply (k +:+ " - " +:+ v)).
Proof.
  split; [exact two_facts_ranges|].
  exact (done_terminates_from_every_state two_facts _ two_facts_ranges).
Defined.

Section handler_cases.
Context `{Unicode}.

(** [C7] A session in the state "typing_reply" whose [Choice] is empty,
    given any text other than "Done", goes back to "choosing" and answers with
    the guidance message, the keyboard shown and [done = false]; facts and
    [Choice] stay as they were, and the call returns normally. *)
Theorem typing_reply_without_choice_recovers (u : UserState) (text : string)
    (ord : list (string * string)) :
  State u = StateTypingReply → Choice u = "" → text ≠ "Done" →
  ∃ u',
    HandleText u text ord = Ok (u', (guidance, true, false))
    ∧ State u' = StateChoosing ∧ Data u' = Data u ∧ Choice u' = Choice u
    ∧ (text ≠ "" →
       respond u (Text text) ord = Ok (u', Some (guidance, MainKeyboard))).
Proof.
  intros Hst Hch Htext. exists (set_State StateChoosing u).
  assert (HandleText u text ord =
          Ok (set_State StateChoosing u, (guidance, true, false))) as HT.
  { unfold HandleText. rewrite decide_False by done. rewrite Hst.
    rewrite decide_False by done. rewrite decide_False by done.
    rewrite decide_True by done.
    unfold handleTypingReply. by rewrite decide_True by done. }
  split_and!; try done.
  intros Hne. unfold respond. rewrite decide_False by done. by rewrite HT.
Qed.

(** [C9] In every state, the terminated one included, [HandleCommandStart]
    sets [State] to "choosing" and touches neither the facts nor [Choice].
    With at least one fact the reply contains "You already told me your"
    and the name of every known category; with none it contains "I will hold
    a more complex conversation". *)
Theorem start_resets_state_only (u : UserState) (ord : list (string * string)) :
  ranges (Data u) ord →
  ∃ u' reply,
    HandleCommandStart u ord = (u', reply)
    ∧ State u' = StateChoosing ∧ Data u' = Data u ∧ Choice u' = Choice u
    ∧ ((0 < len (Data u))%nat →
       Contains reply "You already told me your"
       ∧ ∀ k, is_Some (index (Data u) k) → Contains reply k)
    ∧ (len (Data u) = 0%nat →
       Contains reply "I will hold a more complex conversation").
Proof.
  intros Hord. eexists _, _. split; [reflexivity|].
  split_and!; try done.
  - intros Hpos. cbn. rewrite decide_True by done. split.
    + apply Contains_app_r.
      by exists " ", (" " +:+ Join ord.*1 ", " +:+
        ". Why don't you tell me something more about yourself? Or change anything I already know.").
    + intros k [v Hk]. apply Contains_app_r.
      apply (Contains_app_r " You already told me your "), Contains_app_l.
      apply Contains_Join. apply list_elem_of_fmap. exists (k, v).
      split; [done|]. by apply (ranges_elem_of (Data u)).
  - intros Hz. cbn. rewrite decide_False by lia.
    apply Contains_app_r.
    by exists " ", " with you. Why don't you tell me something about yourself?".
Qed.

(** [C6] When the facts already hold the lower-cased form of a preset
    label, sending that label in the state "choosing" is answered with the
    stored value and the session stays in "choosing"; sending the same text
    in the state "typing_choice" is answered the same way but moves the
    session to "typing_reply" with [Choice] set to the lower-cased label. *)
Theorem known_preset_stays_custom_moves (data : gomap string string)
    (pending text existing : string) (ord : list (string * string)) :
  is_preset text = true → index data (ToLower text) = Some existing →
  let reply :=
    "Your " +:+ ToLower text +:+ "? I already know the following about that: "
    +:+ existing in
  (∃ u',
     HandleText {| State := StateChoosing; Data := data; Choice := pending |}
       text ord = Ok (u', (reply, false, false))
     ∧ State u' = StateChoosing ∧ Data u' = data)
  ∧ (∃ u',
     HandleText {| State := StateTypingChoice; Data := data; Choice := pending |}
       text ord = Ok (u', (reply, false, false))
     ∧ State u' = StateTypingReply ∧ Choice u' = ToLower text
     ∧ Choice u' ≠ "" ∧ Data u' = data).
Proof.
  intros Hp Hk reply. destruct (is_preset_lower text Hp) as (Hd & _ & Hlow & _).
  split.
  - eexists. unfold HandleText. rewrite decide_False by done.
    rewrite decide_True by done.
    unfold handleChoosing. rewrite Hp. cbn. rewrite Hk. done.
  - eexists. unfold HandleText. rewrite decide_False by done.
    rewrite decide_False by done. rewrite decide_True by done.
    unfold handleTypingChoice. cbn. rewrite Hk. done.
Qed.

End handler_cases.

Lemma typing_reply_without_choice_witness :
  ∃ u',
    HandleText stuck_typing "42" [] = Ok (u', (guidance, true, false))
    ∧ State u' = StateChoosing ∧ Data u' = Data stuck_typing
    ∧ Choice u' = Choice stuck_typing
    ∧ ("42" ≠ "" →
       respond stuck_typing (Text "42") [] = Ok (u', Some (guidance, MainKeyboard))).
Proof.
  apply (typing_reply_without_choice_recovers stuck_typing "42" []);
    [reflexivity | reflexivity | discriminate].
Defined.

Lemma start_resets_witness :
  ∃ u' reply,
    HandleCommandStart terminated [("favourite colour", "red"); ("age", "30")]
      = (u', reply)
    ∧ State u' = StateChoosing ∧ Data u' = Data terminated
    ∧ Choice u' = Choice terminated
    ∧ ((0 < len (Data terminated))%nat →
       Contains reply "You already told me your"
       ∧ ∀ k, is_Some (index (Data terminated) k) → Contains reply k)
    ∧ (len (Data terminated) = 0%nat →
       Contains reply "I will hold a more complex conversation").
Proof.
  exact (start_resets_state_only terminated _ two_facts_ranges).
Defined.

Lemma known_preset_witness :
  let reply := "Your age? I already know the following about that: 30" in
  (∃ u',
     HandleText {| State := StateChoosing; Data := Data two_facts; Choice := "" |}
       "Age" [] = Ok (u', (reply, false, false))
     ∧ State u' = StateChoosing ∧ Data u' = Data two_facts)
  ∧ (∃ u',
     HandleText {| State := StateTypingChoice; Data := Data two_facts; Choice := "" |}
       "Age" [] = Ok (u', (reply, false, false))
     ∧ State u' = StateTypingReply ∧ Choice u' = "age"
     ∧ Choice u' ≠ "" ∧ Data u' = Data two_facts).
Proof.
  apply (known_preset_stays_custom_moves (Data two_facts) "" "Age" "30" []);
    vm_compute; reflexivity.
Defined.

Section transitions.
Context `{Unicode}.

Lemma handleChoosing_transition (u : UserState) (text : string) :
  text ≠ "Done" → State u ≠ StateTypingChoice → State u ≠ StateTypingReply →
  transition u text (handleChoosing (set_State StateChoosing u) text).1.
Proof.
  intros Hd Hc Hr. unfold handleChoosing.
  destruct (is_preset text) eqn:Hp; cbn.
  - destruct (index (Data u) (ToLower text)) as [existing|] eqn:Hk; cbn.
    + by apply (t_known u text).
    + by apply (t_fresh u text).
  - destruct (decide (text = "Something else...")) as [->|Hs]; cbn.
    + by apply (t_custom u _).
    + by apply (t_other u text).
Qed.

Lemma set_State_same (u : UserState) : set_State (State u) u = u.
Proof. by destruct u. Qed.

Lemma HandleText_transition (u u' : UserState) (text : string)
    (ord : list (string * string)) (a : answer) :
  HandleText u text ord = Ok (u', a) → transition u text u'.
Proof.
  unfold HandleText. destruct (decide (text = "Done")) as [Hd|Hd].
  { intros [= <- _]. by apply (t_done u). }
  destruct (decide (State u = StateChoosing)) as [Hs|Hs].
  { intros [= Hu]. assert (u' = (handleChoosing u text).1) as -> by by rewrite Hu.
    rewrite <-(set_State_same u) at 2. rewrite Hs.
    apply handleChoosing_transition; [done | by rewrite Hs..]. }
  destruct (decide (State u = StateTypingChoice)) as [Hc|Hc].
  { unfold handleTypingChoice. cbn. case_match; intros [= <- _]; by apply (t_category u text). }
  destruct (decide (State u = StateTypingReply)) as [Hr|Hr].
  { unfold handleTypingReply. destruct (decide (Choice u = "")) as [He|He].
    - intros [= <- _]. by apply (t_lost u text).
    - destruct (Data u) as [g|] eqn:Hg; cbn; [|done].
      intros [= <- _]. by apply (t_value u text g). }
  intros [= Hu]. assert (u' = (handleChoosing (set_State StateChoosing u) text).1)
    as -> by by rewrite Hu.
  by apply handleChoosing_transition.
Qed.

(** [HandleText] returns unless it is about to write to a nil map. *)
Lemma HandleText_returns (u : UserState) (text : string)
    (ord : list (string * string)) :
  (stores u text → Data u ≠ None) → ∃ u' a, HandleText u text ord = Ok (u', a).
Proof.
  intros Hg. unfold HandleText, handleTypingReply.
  repeat case_decide; try (eexists _, _; reflexivity).
  - destruct (handleChoosing u text) as [u' a]. by eexists _, _.
  - destruct (handleTypingChoice u text) as [u' a]. by eexists _, _.
  - destruct (Data u) as [g|]; [|by destruct Hg]. cbn. by eexists _, _.
  - destruct (handleChoosing _ text) as [u' a]. by eexists _, _.
Qed.

Lemma transition_allocated (u u' : UserState) (text : string) :
  transition u text u' → Data u ≠ None → Data u' ≠ None.
Proof. by destruct 1. Qed.

End transitions.

Section frame.
Context `{Unicode}.

(** The frame of [HandleText].  Provided the facts are allocated when a
    value is about to be stored, [HandleText] returns, and it leaves the
    facts as they were unless the session is in "typing_reply" with a
    non-empty [Choice] and the text is not "Done"; in that case the entry
    under [Choice] becomes the lower-cased text and every other entry is
    unchanged.  The "Done" branch in particular changes no fact. *)
Theorem HandleText_changes_only_pending_fact (u : UserState) (text : string)
    (ord : list (string * string)) :
  (stores u text → Data u ≠ None) →
  ∃ u' a,
    HandleText u text ord = Ok (u', a)
    ∧ if decide (stores u text) then
        index (Data u') (Choice u) = Some (ToLower text)
        ∧ ∀ k, k ≠ Choice u → index (Data u') k = index (Data u) k
      else Data u' = Data u.
Proof.
  intros Hg. destruct (HandleText_returns u text ord Hg) as (u' & a & HT).
  exists u', a. split; [done|].
  apply HandleText_transition in HT.
  destruct (decide (stores u text)) as [(Hs & Hc & Hd)|Hn].
  - destruct HT; try state_clash.
    unfold index. cbn. split; [by rewrite lookup_insert_eq|].
    intros k Hk. rewrite lookup_insert_ne by done.
    by replace (Data u) with (Some g).
  - destruct HT; try done. by destruct Hn.
Qed.

End frame.

Lemma HandleText_frame_witness :
  ∃ u' a,
    HandleText awaiting_age "30" [("age", "30")] = Ok (u', a)
    ∧ if decide (stores awaiting_age "30") then
        index (Data u') (Choice awaiting_age) = Some (ToLower "30")
        ∧ ∀ k, k ≠ Choice awaiting_age →
               index (Data u') k = index (Data awaiting_age) k
      else Data u' = Data awaiting_age.
Proof.
  apply (HandleText_changes_only_pending_fact awaiting_age "30" [("age", "30")]).
  intros _. discriminate.
Defined.

(** [C10] fails on the code where the facts are a nil map: the session
    awaits the value for "age", "30" is not "Done", and the call panics
    at the assignment instead of adding the entry for "age". *)
Lemma HandleText_panics_on_nil_facts :
  stores without_facts "30"
  ∧ HandleText without_facts "30" [] = Panic "assignment to entry in nil map"
  ∧ ¬ ∃ u' a, HandleText without_facts "30" [] = Ok (u', a).
Proof.
  split_and!; [by vm_compute | reflexivity | by intros (u' & a & [=])].
Qed.

(** Such a session is what [Load] makes of a snapshot in which the user has
    no "data" member. *)
Lemma without_facts_is_loaded :
  Load (NewStorage "conversationbot.json") dataless_disk None
  = (Some {[ 7 := Some without_facts ]}, None).
Proof. vm_compute. reflexivity. Qed.

(** The bot started on that snapshot stops with the panic when user 7
    sends the value. *)
Lemma Run_panics_on_loaded_session :
  let b := {| storage := NewStorage "conversationbot.json";
              users := Some {[ 7 := Some without_facts ]};
              disk := dataless_disk; sent := [] |} in
  NewBot (NewStorage "conversationbot.json") dataless_disk None = Val b
  ∧ Run b [(Some {| From := Some 7; Chat := 7; Body := Text "30" |},
            ([], None, None))]
    = Panic "assignment to entry in nil map".
Proof. split; vm_compute; reflexivity. Qed.

(** ** Conversations *)

Section invariant.
Context `{Unicode}.

Lemma transition_pending (u u' : UserState) (text : string) :
  text ≠ "" → transition u text u' → pending_known u'.
Proof.
  intros Hne Ht Hs. destruct Ht; cbn in *; try state_clash.
  - by apply is_preset_lower.
  - by apply ToLower_nonempty.
Qed.

Lemma exec_pending (u : UserState) (o : op) (ord : list (string * string)) :
  Data u ≠ None → pending_known u → text_of o ≠ Some "" →
  ∃ u', exec u o ord = Ok u' ∧ Data u' ≠ None ∧ pending_known u'.
Proof.
  intros Hg Hp Ho. destruct o as [| |text]; cbn.
  - eexists. split; [done|]. split; [done|]. intros Hs. cbn in Hs. state_clash.
  - by eexists.
  - destruct (HandleText_returns u text ord) as (u' & a & HT); [done|].
    rewrite HT. cbn. exists u'. split; [done|].
    apply HandleText_transition in HT. split.
    + by eapply transition_allocated.
    + eapply transition_pending; [|done]. intros ->. by apply Ho.
Qed.

Lemma run_pending (ops : list (op * list (string * string))) (u : UserState) :
  Data u ≠ None → pending_known u → Forall nonempty_text ops →
  ∃ u', run u ops = Ok u' ∧ Data u' ≠ None ∧ pending_known u'.
Proof.
  revert u. induction ops as [|[o ord] ops IH]; intros u Hg Hp Hops.
  - by exists u.
  - apply Forall_cons in Hops as [Ho Hops].
    destruct (exec_pending u o ord Hg Hp Ho) as (u1 & Hu1 & Hg1 & Hp1).
    cbn. rewrite Hu1. cbn. by apply IH.
Qed.

(** [C1], amended.  Every sequence of [HandleCommandStart],
    [HandleShowData] and [HandleText] calls on a new session, no text being
    empty, runs to its end, and in the session it reaches [Choice] is
    non-empty whenever [State] is "typing_reply". *)
Theorem typing_reply_has_choice (ops : list (op * list (string * string))) :
  Forall nonempty_text ops →
  ∃ u, run NewUserState ops = Ok u
       ∧ (State u = StateTypingReply → Choice u ≠ "").
Proof.
  intros Hops.
  destruct (run_pending ops NewUserState) as (u & Hu & _ & Hp); try done.
  by exists u.
Qed.

End invariant.

Lemma typing_reply_has_choice_witness :
  ∃ u, run NewUserState [(OpStart, []); (OpText "Something else...", []);
                         (OpText "Shoe size", [])] = Ok u
       ∧ (State u = StateTypingReply → Choice u ≠ "").
Proof.
  apply typing_reply_has_choice.
  repeat (apply Forall_cons; split; [discriminate|]). apply Forall_nil_2.
Defined.

(** [C1], as first stated, fails: the converse direction is lost as soon as
    [HandleCommandStart] interrupts the entry of a value.  After "Age" the
    session awaits the value with [Choice = "age"]; the start command puts
    [State] back to "choosing" and leaves [Choice] alone. *)
Lemma start_keeps_choice :
  ∃ u, run NewUserState [(OpText "Age", []); (OpStart, [])] = Ok u
       ∧ Choice u = "age" ∧ State u = StateChoosing
       ∧ ¬ (Choice u ≠ "" ↔ State u = StateTypingReply).
Proof.
  eexists. split; [vm_compute; reflexivity|]. cbn.
  split_and!; [done..|]. intros [Hf _]. by specialize (Hf ltac:(done)).
Qed.

(** Two more ways out of the equivalence: a preset category that is already
    known sets [Choice] and stays in "choosing"; an empty category text,
    which [handleMessage] never passes on, enters "typing_reply" with an
    empty [Choice]. *)
Lemma known_preset_keeps_choice :
  ∃ u, run NewUserState [(OpText "Age", []); (OpText "30", [("age", "30")]);
                         (OpText "Age", [])] = Ok u
       ∧ Choice u = "age" ∧ State u = StateChoosing.
Proof. eexists. split; [vm_compute; reflexivity|]. done. Qed.

Lemma empty_category_text :
  ∃ u, run NewUserState [(OpText "Something else...", []); (OpText "", [])] = Ok u
       ∧ Choice u = "" ∧ State u = StateTypingReply.
Proof. eexists. split; [vm_compute; reflexivity|]. done. Qed.

(** *** Where keys and values come from *)

Section provenance.
Context `{Unicode}.

Lemma asked_mono (h h' : list (UserState * string)) (k : string) :
  asked h k → asked (h ++ h') k.
Proof.
  intros (i & uc & c & Hi & Hc & Hk). exists i, uc, c.
  split; [|done]. by apply lookup_app_l_Some.
Qed.

Lemma told_mono (h h' : list (UserState * string)) (k v : string) :
  told h k v → told (h ++ h') k v.
Proof.
  intros (i & j & uc & c & ut & t & Hij & Hi & Hc & Hk & Hj & Ht).
  exists i, j, uc, c, ut, t.
  split_and!; [done | by apply lookup_app_l_Some | done | done
              | by apply lookup_app_l_Some | apply Ht..].
Qed.

Lemma asked_last (h : list (UserState * string)) (u : UserState)
    (text : string) :
  names_category u text → asked (h ++ [(u, text)]) (ToLower text).
Proof.
  intros Hc. exists (length h), u, text.
  split; [|done]. by apply list_lookup_middle.
Qed.

(** The facts were told and a pending category was asked for. *)
Lemma transition_told (h : list (UserState * string)) (u u' : UserState)
    (text : string) :
  (∀ k v, index (Data u) k = Some v → told h k v) →
  (Choice u = "" ∨ asked h (Choice u)) →
  transition u text u' →
  (∀ k v, index (Data u') k = Some v → told (h ++ [(u, text)]) k v)
  ∧ (Choice u' = "" ∨ asked (h ++ [(u, text)]) (Choice u')).
Proof.
  intros Hd Hc Ht.
  assert (∀ k v, index (Data u) k = Some v → told (h ++ [(u, text)]) k v)
    as Hd'.
  { intros k v Hk. by apply told_mono, Hd. }
  assert (Choice u = "" ∨ asked (h ++ [(u, text)]) (Choice u)) as Hc'.
  { destruct Hc as [?|?]; [by left|]. right. by apply asked_mono. }
  inversion Ht; subst; cbn [Data Choice]; (split; [try done|]);
    try done; try by left.
  - right. apply asked_last. by split; [|right].
  - right. apply asked_last. by split; [|right].
  - right. apply asked_last. by split; [|left].
  - intros k v Hk. unfold index in Hk. cbn in Hk.
    destruct (decide (k = Choice u)) as [->|Hne].
    + rewrite lookup_insert_eq in Hk. injection Hk as <-.
      destruct Hc as [?|(i & uc & c & Hi & Hn & Hk)]; [done|].
      exists i, (length h), uc, c, u, text.
      split_and!; [by eapply lookup_lt_Some | by apply lookup_app_l_Some
                  | done | done | by apply list_lookup_middle | done..].
    + rewrite lookup_insert_ne in Hk by done. apply Hd'.
      unfold index. by replace (Data u) with (Some g).
Qed.

Lemma run_told (ops : list (op * list (string * string)))
    (h : list (UserState * string)) (u u' : UserState) :
  (∀ k v, index (Data u) k = Some v → told h k v) →
  (Choice u = "" ∨ asked h (Choice u)) →
  run u ops = Ok u' →
  ∀ k v, index (Data u') k = Some v → told (h ++ history u ops) k v.
Proof.
  revert h u. induction ops as [|[o ord] ops IH]; intros h u Hd Hc;
    cbn [run history].
  - intros [= <-]. by rewrite app_nil_r.
  - destruct (exec u o ord) as [u1|msg] eqn:He; cbn [rbind]; [|done].
    intros Hr. rewrite app_assoc. revert Hr. apply IH.
    + destruct o as [| |text]; cbn in He |- *.
      * injection He as <-. rewrite app_nil_r. exact Hd.
      * injection He as <-. rewrite app_nil_r. exact Hd.
      * destruct (HandleText u text ord) as [[u2 a]|m] eqn:HT; cbn in He;
          [|done].
        injection He as <-. apply HandleText_transition in HT.
        by apply (transition_told h u u2 text).
    + destruct o as [| |text]; cbn in He |- *.
      * injection He as <-. rewrite app_nil_r. exact Hc.
      * injection He as <-. rewrite app_nil_r. exact Hc.
      * destruct (HandleText u text ord) as [[u2 a]|m] eqn:HT; cbn in He;
          [|done].
        injection He as <-. apply HandleText_transition in HT.
        by apply (transition_told h u u2 text).
Qed.

(** The conversation holds the texts that were sent, all of them. *)
Lemma history_texts (ops : list (op * list (string * string)))
    (u u' : UserState) :
  run u ops = Ok u' → (history u ops).*2 = texts ops.
Proof.
  revert u. induction ops as [|[o ord] ops IH]; intros u; cbn [run history];
    [done|].
  destruct (exec u o ord) as [u1|msg] eqn:He; cbn [rbind]; [|done].
  intros Hr. rewrite fmap_app, (IH u1 Hr). unfold texts. cbn.
  by destruct (text_of o).
Qed.

Lemma category_step (u : UserState) (c : string) (ord : list (string * string)) :
  State u = StateTypingChoice → c ≠ "Done" →
  exec u (OpText c) ord =
  Ok {| State := StateTypingReply; Data := Data u; Choice := ToLower c |}.
Proof.
  intros Hs Hc. cbn. unfold HandleText.
  rewrite decide_False by done. rewrite Hs.
  rewrite decide_False by done. rewrite decide_True by done.
  unfold handleTypingChoice. cbn. by case_match.
Qed.

Lemma value_step (u : UserState) (g : gmap string string) (v : string)
    (ord : list (string * string)) :
  State u = StateTypingReply → Choice u ≠ "" → Data u = Some g → v ≠ "Done" →
  exec u (OpText v) ord =
  Ok {| State := StateChoosing; Data := Some (<[Choice u:=ToLower v]> g);
        Choice := "" |}.
Proof.
  intros Hs Hc Hg Hv. cbn. unfold HandleText.
  rewrite decide_False by done. rewrite Hs.
  do 2 rewrite decide_False by done. rewrite decide_True by done.
  unfold handleTypingReply. rewrite decide_False by done. by rewrite Hg.
Qed.

Lemma custom_step (u : UserState) (ord : list (string * string)) :
  State u = StateChoosing →
  exec u (OpText "Something else...") ord =
  Ok {| State := StateTypingChoice; Data := Data u; Choice := Choice u |}.
Proof.
  intros Hs. cbn. unfold HandleText.
  rewrite decide_False by done. by rewrite Hs.
Qed.

(** [C5], amended.  In every session a conversation reaches from a new
    one, each stored fact was told: its key is [strings.ToLower] of a
    category text that was sent, and its value [strings.ToLower] of a value
    text that was sent later, while that category was pending; nothing is
    trimmed.  Sent as custom categories, "Age" and later "AGE" write to the
    one key "age". *)
Theorem stored_facts_are_lowercased_texts :
  (∀ ops u, run NewUserState ops = Ok u →
     (history NewUserState ops).*2 = texts ops
     ∧ ∀ k v, index (Data u) k = Some v →
         told (history NewUserState ops) k v)
  ∧ (∀ u g v1 v2 ord,
       State u = StateTypingChoice → Data u = Some g →
       v1 ≠ "Done" → v2 ≠ "Done" →
       ∃ u', run u [(OpText "Age", ord); (OpText v1, ord);
                    (OpText "Something else...", ord);
                    (OpText "AGE", ord); (OpText v2, ord)] = Ok u'
             ∧ Data u' = Some (<["age":=ToLower v2]> g)).
Proof.
  split.
  - intros ops u Hr. split; [by eapply history_texts|].
    apply (run_told ops [] NewUserState u); [|by left|done].
    intros k v Hk. change ((∅ : gmap string string) !! k = Some v) in Hk.
    by rewrite lookup_empty in Hk.
  - intros u g v1 v2 ord Hs Hg Hv1 Hv2. eexists. split.
    + unfold run.
      rewrite category_step by done. cbn [rbind].
      erewrite value_step; [|done|by vm_compute|done|done]. cbn [rbind].
      rewrite custom_step by done. cbn [rbind].
      rewrite category_step by done. cbn [rbind].
      erewrite value_step; [|done|by vm_compute|done|done]. cbn [rbind].
      reflexivity.
    + cbn. by rewrite insert_insert_eq.
Qed.

End provenance.

Lemma stored_facts_witness :
  ((history NewUserState blank_category).*2 = texts blank_category
   ∧ told (history NewUserState blank_category) " age" "30")
  ∧ ∃ u', run two_facts [(OpText "Age", []); (OpText "31", []);
                         (OpText "Something else...", []);
                         (OpText "AGE", []); (OpText "32", [])] = Ok u'
          ∧ Data u' = Some (<["age":=ToLower "32"]>
                              (<["age":="30"]> (<["favourite colour":="red"]> ∅))).
Proof.
  split; [split|].
  - apply (proj1 stored_facts_are_lowercased_texts blank_category
             {| State := StateChoosing; Data := Some {[ " age" := "30" ]};
                Choice := "" |}); reflexivity.
  - apply (proj1 stored_facts_are_lowercased_texts blank_category
             {| State := StateChoosing; Data := Some {[ " age" := "30" ]};
                Choice := "" |}); reflexivity.
  - apply (proj2 stored_facts_are_lowercased_texts two_facts _ "31" "32" []);
      [reflexivity | reflexivity | discriminate | discriminate].
Defined.

(** [C5], as first stated, fails: a category sent with a leading blank is
    stored with the blank, under a key that is not the lower-cased, trimmed
    form of any text of the conversation. *)
Lemma category_is_not_trimmed :
  ∃ u, run NewUserState blank_category = Ok u
       ∧ index (Data u) " age" = Some "30"
       ∧ index (Data u) (lowercased_trimmed " Age") = None
       ∧ ∀ t, t ∈ texts blank_category → " age" ≠ lowercased_trimmed t.
Proof.
  eexists. split; [vm_compute; reflexivity|].
  split_and!; [by vm_compute..|].
  intros t Ht. vm_compute in Ht.
  repeat (apply elem_of_cons in Ht as [->|Ht]; [by vm_compute|]).
  by apply elem_of_nil in Ht.
Qed.

(** The parts of a fact do not change places: after "Age" and "30" the
    fact "age" - "30" was told, and "30" - "age" was not. *)
Example told_is_directed :
  let h := history NewUserState [(OpText "Age", []); (OpText "30", [])] in
  told h "age" "30" ∧ ¬ told h "30" "age".
Proof.
  assert (history NewUserState [(OpText "Age", []); (OpText "30", [])]
          = [(NewUserState, "Age");
             ({| State := StateTypingReply; Data := Some ∅; Choice := "age" |},
              "30")]) as -> by (vm_compute; reflexivity).
  split.
  - exists 0%nat, 1%nat, NewUserState, "Age",
      {| State := StateTypingReply; Data := Some ∅; Choice := "age" |}, "30".
    split_and!; try done; try lia; try by split_and!.
    by split; [|right].
  - intros (i & j & uc & c & ut & t & Hij & Hi & _ & Hk & Hj & _).
    apply lookup_lt_Some in Hj as Hlt. cbn in Hlt.
    assert (i = 0%nat) as -> by lia.
    injection Hi as _ <-. by vm_compute in Hk.
Qed.

(** ** Showing the facts *)

Section show_data.
Context `{Unicode}.


End show_data.



(** ** Text of keys: UTF-8 and decimal numbers *)

Section utf8_facts.

Lemma valid_coerce_from (s : string) (keep : nat) :
  valid_from keep s = true → coerce_from keep s = s.
Proof.
  revert keep. induction s as [|c s IH]; intros keep; [done|].
  cbn [valid_from coerce_from]. destruct keep as [|k].
  - destruct (rune_len (String c s)) as [n|]; [|done].
    intros Hv. by rewrite IH.
  - intros Hv. by rewrite IH.
Qed.

Lemma valid_coerce (s : string) : ValidString s = true → coerce s = s.
Proof. apply valid_coerce_from. Qed.

Lemma ascii_coerce (s : string) : isASCII s = true → coerce s = s.
Proof.
  unfold coerce. induction s as [|c s IH]; [done|].
  cbn [isASCII coerce_from rune_len]. intros [Hc Hs]%andb_true_iff.
  rewrite Hc. cbn. by rewrite IH.
Qed.

End utf8_facts.

Section strconv_facts.

Lemma pretty_N_char_digit (d : N) :
  (d < 10)%N →
  digit (pretty.pretty_N_char d) = Some (Z.of_N d)
  ∧ byte_in "0" "9" (pretty.pretty_N_char d) = true.
Proof.
  intros Hd.
  assert (d = 0 ∨ d = 1 ∨ d = 2 ∨ d = 3 ∨ d = 4 ∨ d = 5 ∨ d = 6 ∨ d = 7
          ∨ d = 8 ∨ d = 9)%N as Hcases by lia.
  repeat (destruct Hcases as [->|Hcases]; [by vm_compute|]). by subst.
Qed.

Lemma digit_ascii (c : ascii) :
  byte_in "0" "9" c = true → (N_of_ascii c <? 128)%N = true.
Proof.
  unfold byte_in. intros [_ Hc]%andb_true_iff.
  apply N.leb_le in Hc. apply N.ltb_lt.
  change (N_of_ascii "9") with 57%N in Hc. lia.
Qed.

Lemma digits_pretty_N_go (x : N) (s : string) :
  digits 0 (pretty.pretty_N_go x s) = digits (Z.of_N x) s.
Proof.
  revert s. induction (N.lt_wf_0 x) as [x _ IH]; intros s.
  destruct (decide (x = 0%N)) as [->|Hx]; [done|].
  rewrite pretty.pretty_N_go_step by lia.
  rewrite IH by (apply N.div_lt; lia). cbn [digits].
  destruct (pretty_N_char_digit (x `mod` 10)%N) as [-> _].
  { apply N.mod_lt. lia. }
  cbn. f_equal. rewrite N2Z.inj_div, N2Z.inj_mod.
  pose proof (Z.div_mod (Z.of_N x) 10). lia.
Qed.

Lemma pretty_N_go_head (x : N) (s : string) :
  (0 < x)%N →
  ∃ c r, pretty.pretty_N_go x s = String c r ∧ byte_in "0" "9" c = true.
Proof.
  revert s. induction (N.lt_wf_0 x) as [x _ IH]; intros s Hx.
  rewrite pretty.pretty_N_go_step by done.
  destruct (decide (x `div` 10 = 0)%N) as [->|Hq].
  - eexists _, _. split; [done|]. apply pretty_N_char_digit, N.mod_lt. lia.
  - apply IH; [apply N.div_lt; lia | by apply N.neq_0_lt_0].
Qed.

Lemma pretty_N_go_ascii (x : N) (s : string) :
  isASCII s = true → isASCII (pretty.pretty_N_go x s) = true.
Proof.
  revert s. induction (N.lt_wf_0 x) as [x _ IH]; intros s Hs.
  destruct (decide (x = 0%N)) as [->|Hx]; [done|].
  rewrite pretty.pretty_N_go_step by lia. apply IH; [apply N.div_lt; lia|].
  cbn [isASCII]. rewrite Hs, andb_true_r.
  apply digit_ascii, pretty_N_char_digit, N.mod_lt. lia.
Qed.

Lemma ParseInt_digit_first (c : ascii) (r : string) :
  byte_in "0" "9" c = true →
  ParseInt (String c r) =
  (v ← unsigned (String c r);
   if decide (- 2 ^ 63 ≤ v < 2 ^ 63) then Some v else None).
Proof.
  destruct c as [[] [] [] [] [] [] [] []]; try discriminate; reflexivity.
Qed.

Lemma ParseInt_minus (r : string) :
  ParseInt (String "-" r) =
  (v ← Z.opp <$> unsigned r;
   if decide (- 2 ^ 63 ≤ v < 2 ^ 63) then Some v else None).
Proof. reflexivity. Qed.

Lemma unsigned_pretty_pos (p : positive) :
  unsigned (pretty.pretty_N_go (N.pos p) "") = Some (Z.pos p).
Proof.
  unfold unsigned.
  destruct (pretty_N_go_head (N.pos p) "") as (c & r & Hcr & _); [lia|].
  rewrite decide_False by (by rewrite Hcr).
  by rewrite digits_pretty_N_go.
Qed.

Lemma FormatInt_ascii (k : Z) : isASCII (FormatInt k) = true.
Proof.
  destruct k as [|p|p]; [done|..].
  - by apply pretty_N_go_ascii.
  - change (isASCII (String "-" (pretty.pretty_N_go (N.pos p) "")) = true).
    cbn [isASCII]. by rewrite pretty_N_go_ascii.
Qed.

(** Reading back a printed key gives the key. *)
Lemma ParseInt_FormatInt (k : Z) :
  - 2 ^ 63 ≤ k < 2 ^ 63 → ParseInt (FormatInt k) = Some k.
Proof.
  intros Hk. destruct k as [|p|p]; [done|..].
  - change (FormatInt (Z.pos p)) with (pretty.pretty_N_go (N.pos p) "").
    destruct (pretty_N_go_head (N.pos p) "") as (c & r & Hcr & Hc); [lia|].
    rewrite Hcr, ParseInt_digit_first by done. rewrite <-Hcr.
    rewrite unsigned_pretty_pos. cbn. by rewrite decide_True.
  - change (FormatInt (Z.neg p))
      with (String "-" (pretty.pretty_N_go (N.pos p) "")).
    rewrite ParseInt_minus, unsigned_pretty_pos. cbn. by rewrite decide_True.
Qed.

End strconv_facts.

(** ** Snapshots *)

Section json_facts.

Lemma foldM_fields {K V} `{Countable K}
    (f : gmap K V → string * value → except (gmap K V))
    (mk : K * V → string * value) (l0 : list (K * V)) (g0 : gmap K V) :
  (∀ g kv, kv ∈ l0 → f g (mk kv) = Val (<[kv.1:=kv.2]> g)) →
  foldM f g0 (mk <$> l0) = Val (foldl (λ g kv, <[kv.1:=kv.2]> g) g0 l0).
Proof.
  revert g0. induction l0 as [|kv l0 IH]; intros g0 Hf; [done|].
  cbn. rewrite Hf by apply list_elem_of_here. cbn.
  apply IH. intros g kv' Hin. apply Hf. by apply list_elem_of_further.
Qed.

Lemma foldl_insert_reverse {K V} `{Countable K}
    (l0 : list (K * V)) (g0 : gmap K V) :
  foldl (λ g kv, <[kv.1:=kv.2]> g) g0 l0
  = foldr (λ kv g, <[kv.1:=kv.2]> g) g0 (reverse l0).
Proof.
  revert g0. induction l0 as [|kv l0 IH]; intros g0; [done|].
  rewrite reverse_cons, foldr_app. apply (IH (<[kv.1:=kv.2]> g0)).
Qed.

Lemma foldl_insert_map_to_list {K V} `{Countable K}
    (l0 : list (K * V)) (g : gmap K V) :
  l0 ≡ₚ map_to_list g → foldl (λ g kv, <[kv.1:=kv.2]> g) ∅ l0 = g.
Proof.
  intros Hp. rewrite foldl_insert_reverse.
  change (list_to_map (reverse l0) = g). symmetry. apply list_to_map_flip.
  by rewrite reverse_Permutation.
Qed.

Lemma encMap_fields {K V} `{Countable K} (name : K → string) (enc : V → value)
    (g : gmap K V) :
  ∃ l0, l0 ≡ₚ map_to_list g
        ∧ encMap name enc (Some g)
          = JObject ((λ kv : K * V, (coerce (name kv.1), enc kv.2)) <$> l0).
Proof.
  unfold encMap.
  pose proof (merge_sort_Permutation (@by_key V)
                ((λ kv : K * V, (name kv.1, kv.2)) <$> map_to_list g)) as Hp.
  apply Permutation_map_inv in Hp as (l0 & Hl0 & Hp0).
  exists l0. split; [done|]. f_equal.
  trans ((λ kv : string * V, (coerce kv.1, enc kv.2)) <$>
         ((λ kv : K * V, (name kv.1, kv.2)) <$> l0)).
  { f_equal. exact Hl0. }
  by rewrite <-list_fmap_compose.
Qed.

(** Decoding the object of a map gives the map back, provided each key and
    each value is read back as it was. *)
Lemma decode_encMap {K V} `{Countable K} (name : K → string) (enc : V → value)
    (f : gmap K V → string * value → except (gmap K V)) (g : gmap K V) :
  (∀ g' k v, g !! k = Some v →
             f g' (coerce (name k), enc v) = Val (<[k:=v]> g')) →
  ∃ fields, encMap name enc (Some g) = JObject fields ∧ foldM f ∅ fields = Val g.
Proof.
  intros Hf. destruct (encMap_fields name enc g) as (l0 & Hp & ->).
  eexists. split; [done|].
  rewrite (foldM_fields f (λ kv, (coerce (name kv.1), enc kv.2))).
  - by rewrite (foldl_insert_map_to_list l0 g).
  - intros g' [k v] Hin. apply Hf. apply elem_of_map_to_list. by rewrite <-Hp.
Qed.

Lemma decData_encMap (d : gomap string string) :
  (∀ k v, index d k = Some v → ValidString k = true ∧ ValidString v = true) →
  decData (encMap id encString d) None = Val d.
Proof.
  intros Hv. destruct d as [g|]; [|done].
  destruct (decode_encMap id encString
    (λ g kv, v ←ₑ decString kv.2 ""; Val (<[kv.1:=v]> g)) g) as (fs & -> & Hfs).
  { intros g' k v Hk. destruct (Hv k v Hk) as [Hvk Hvv]. cbn.
    by rewrite !valid_coerce. }
  unfold decData. cbn [entries default]. by rewrite Hfs.
Qed.

Lemma decField_state (u : UserState) (j : value) :
  decField u ("state", j) = (s ←ₑ decString j (State u); Val (set_State s u)).
Proof. reflexivity. Qed.

Lemma decField_data (u : UserState) (j : value) :
  decField u ("data", j) = (d ←ₑ decData j (Data u); Val (set_Data d u)).
Proof. reflexivity. Qed.

Lemma decField_choice (u : UserState) (j : value) :
  decField u ("choice", j) = (c ←ₑ decString j (Choice u); Val (set_Choice c u)).
Proof. reflexivity. Qed.

Lemma decUserState_encUserState (p : option UserState) :
  (∀ u, p = Some u → valid_session u) →
  decUserState (encUserState p) = Val p.
Proof.
  intros Hv. destruct p as [u|]; [|done].
  destruct (Hv u eq_refl) as (Hs & Hc & Hd).
  unfold encUserState, decUserState. cbn [foldM].
  rewrite decField_state. unfold encString at 1. cbn [decString ebind].
  rewrite decField_data. cbn [Data set_State zeroUserState].
  rewrite decData_encMap by done. cbn [ebind].
  rewrite decField_choice. unfold encString. cbn [decString ebind].
  rewrite !valid_coerce by done. by destruct u.
Qed.

Lemma decUsers_encMap (users : gomap Z (option UserState)) :
  int64_keys users → valid_collection users →
  decUsers (encMap FormatInt encUserState users) (Some ∅) = Val users.
Proof.
  intros Hk Hv. destruct users as [g|]; [|done].
  destruct (decode_encMap FormatInt encUserState
    (λ g kv, p ←ₑ decUserState kv.2; id ←ₑ decKey kv.1; Val (<[id:=p]> g)) g)
    as (fs & -> & Hfs).
  { intros g' k p Hkp. cbn.
    rewrite decUserState_encUserState by (intros u ->; by apply (Hv k)).
    cbn. unfold decKey.
    rewrite ascii_coerce by apply FormatInt_ascii.
    by rewrite ParseInt_FormatInt by by apply (Hk k p). }
  unfold decUsers.
  change (entries (Some ∅)) with (∅ : gmap Z (option UserState)).
  by rewrite Hfs.
Qed.

Lemma decPersisted_encPersisted (users : gomap Z (option UserState)) :
  int64_keys users → valid_collection users →
  decPersisted (encPersisted {| Users := users |}) {| Users := Some ∅ |}
  = Val {| Users := users |}.
Proof.
  intros Hk Hv. unfold encPersisted, decPersisted. cbn [foldM fst snd Users].
  change (fold_eq "users" "users") with true. cbn.
  by rewrite decUsers_encMap.
Qed.

Lemma printed_object (fields : list (string * value)) :
  printed (JObject fields) ↔
  Forall (λ kv, (∃ k0, kv.1 = coerce k0) ∧ printed kv.2) fields.
Proof.
  induction fields as [|[k v] fields IH].
  - split; [by constructor | done].
  - rewrite Forall_cons, <-IH. cbn. tauto.
Qed.

Lemma printed_encMap {K V} `{Countable K} (name : K → string) (enc : V → value)
    (m : gomap K V) :
  (∀ v, printed (enc v)) → printed (encMap name enc m).
Proof.
  intros Henc. destruct m as [g|]; [|done].
  destruct (encMap_fields name enc g) as (l0 & _ & ->).
  apply printed_object, Forall_fmap, Forall_forall. intros [k v] _. cbn. eauto.
Qed.

Lemma printed_encString (s : string) : printed (encString s).
Proof. by exists s. Qed.

Lemma printed_encUserState (p : option UserState) : printed (encUserState p).
Proof.
  destruct p as [u|]; [|done]. apply printed_object.
  repeat apply Forall_cons_2; try apply Forall_nil_2; cbn [fst snd].
  - split; [by exists "state" | apply printed_encString].
  - split; [by exists "data" | apply printed_encMap, printed_encString].
  - split; [by exists "choice" | apply printed_encString].
Qed.

Lemma printed_encPersisted (d : persistedData) : printed (encPersisted d).
Proof.
  apply printed_object, Forall_cons_2; [|apply Forall_nil_2]. cbn [fst snd].
  split; [by exists "users"|]. apply printed_encMap, printed_encUserState.
Qed.

End json_facts.

Section storage_facts.
Context `{Syntax}.

Lemma Unmarshal_MarshalIndent (users : gomap Z (option UserState)) :
  int64_keys users → valid_collection users →
  Unmarshal (MarshalIndent {| Users := users |}) {| Users := Some ∅ |}
  = Val {| Users := users |}.
Proof.
  intros Hk Hv. unfold Unmarshal, MarshalIndent.
  rewrite scan_render by apply printed_encPersisted.
  by apply decPersisted_encPersisted.
Qed.

Lemma Save_ok (s : Storage) (fs fs' : gmap string text)
    (users : gomap Z (option UserState))
    (wfault : option (string * option text)) (rfault : option string) :
  Save s fs users wfault rfault = (fs', None) →
  fs' !! path s = Some (MarshalIndent {| Users := users |}).
Proof.
  unfold Save, WriteFile, Rename.
  destruct wfault as [[what [partial|]]|]; [done..|].
  destruct rfault as [what|]; [done|].
  rewrite lookup_insert_eq. intros [= <-]. by rewrite lookup_insert_eq.
Qed.

(** [C3], amended.  When the keys are [int64] values and every string of
    the collection is valid UTF-8, a [Save] that reports no error followed by
    a [Load] returns, without error, a collection with exactly the entries
    that were saved: the same keys and for each of them the same session
    (state, choice and data), or the same nil pointer. *)
Theorem Save_then_Load (s : Storage) (fs fs' : gmap string text)
    (users : gomap Z (option UserState))
    (wfault : option (string * option text)) (rfault : option string) :
  int64_keys users → valid_collection users →
  Save s fs users wfault rfault = (fs', None) →
  Load s fs' None = (Some (entries users), None).
Proof.
  intros Hk Hv Hsave%Save_ok. unfold Load, ReadFile. rewrite Hsave.
  rewrite Unmarshal_MarshalIndent by done. cbn [Users].
  by destruct users.
Qed.

(** [C4] Where there is no file at the path, [Load] returns an empty
    collection and no error.  Where there is a file that [json.Unmarshal]
    rejects, because it does not scan or because the document does not fit
    the types, [Load] returns that error and no collection. *)
Theorem Load_missing_or_corrupt (s : Storage) (fs : gmap string text) :
  (fs !! path s = None → Load s fs None = (Some ∅, None))
  ∧ (∀ b, fs !! path s = Some b → scan b = None →
          Load s fs None = (None, Some SyntaxError))
  ∧ (∀ b err, fs !! path s = Some b →
          Unmarshal b {| Users := Some ∅ |} = Err err →
          Load s fs None = (None, Some err)).
Proof.
  unfold Load, ReadFile. split_and!.
  - by intros ->.
  - intros b -> Hb. unfold Unmarshal. by rewrite Hb.
  - intros b err -> Hb. by rewrite Hb.
Qed.

End storage_facts.

Lemma one_user_int64 : int64_keys one_user.
Proof.
  intros id p Hp. unfold index, one_user in Hp. cbn in Hp.
  apply lookup_singleton_Some in Hp as [<- _]. lia.
Qed.

Lemma one_user_valid : valid_collection one_user.
Proof.
  intros id u Hu. unfold index, one_user in Hu. cbn in Hu.
  apply lookup_singleton_Some in Hu as [_ [= <-]].
  split_and!; [done..|]. intros k v Hk. unfold index in Hk. cbn in Hk.
  by apply lookup_singleton_Some in Hk as [<- <-].
Qed.

Lemma Save_then_Load_witness :
  ∃ fs', Save (NewStorage "conversationbot.json") ∅ one_user None None = (fs', None)
         ∧ Load (NewStorage "conversationbot.json") fs' None
           = (Some (entries one_user), None).
Proof.
  eexists. split; [reflexivity|].
  exact (Save_then_Load (NewStorage "conversationbot.json") ∅ _ one_user None None
           one_user_int64 one_user_valid eq_refl).
Defined.

Lemma Load_missing_or_corrupt_witness :
  Load (NewStorage "conversationbot.json") ∅ None = (Some ∅, None)
  ∧ Load (NewStorage "conversationbot.json") garbled_disk None
    = (None, Some SyntaxError)
  ∧ Load (NewStorage "conversationbot.json") misfit_disk None
    = (None, Some (UnmarshalTypeError "main.persistedData")).
Proof.
  split_and!.
  - apply (proj1 (Load_missing_or_corrupt (NewStorage "conversationbot.json") ∅)).
    reflexivity.
  - apply (proj1 (proj2 (Load_missing_or_corrupt
             (NewStorage "conversationbot.json") garbled_disk)) None);
      reflexivity.
  - apply (proj2 (proj2 (Load_missing_or_corrupt
             (NewStorage "conversationbot.json") misfit_disk))
             (Some (JArray [])));
      reflexivity.
Defined.

(** [C3], as first stated, fails: the encoder replaces a byte that is not
    part of a well-formed rune by U+FFFD, and the session comes back with a
    different fact. *)
Lemma stray_byte_is_not_restored :
  ∃ fs' users',
    Save (NewStorage "conversationbot.json") ∅ stray_user None None = (fs', None)
    ∧ Load (NewStorage "conversationbot.json") fs' None = (Some users', None)
    ∧ name_of_user_1 (entries stray_user) = Some stray_byte
    ∧ name_of_user_1 users' = Some replacement
    ∧ users' ≠ entries stray_user.
Proof.
  eexists _, _. split; [reflexivity|]. split; [vm_compute; reflexivity|].
  split; [by vm_compute|]. split; [by vm_compute|].
  intros Heq. apply (f_equal name_of_user_1) in Heq.
  vm_compute in Heq. discriminate.
Qed.

(** ** The dispatcher *)

Section dispatcher_facts.
Context `{Unicode} `{Syntax}.

(** "Done" from a user with a session: the reply goes out with the
    keyboard removed, and the registry holds the terminated session. *)
Lemma handleMessage_done (b : Bot) (userID chat : Z) (us : UserState)
    (ord : list (string * string))
    (wfault : option (string * option text)) (rfault : option string) :
  index (users b) userID = Some (Some us) →
  ∃ b',
    handleMessage b {| From := Some userID; Chat := chat; Body := Text "Done" |}
      ord wfault rfault = Ok b'
    ∧ sent b' = sent b ++
        [(chat,
          "I learned these facts about you: " +:+ factsToStr (Data us) ord
            +:+ "Until next time!",
          RemoveKeyboard)]
    ∧ index (users b') userID
      = Some (Some {| State := ""; Data := Data us; Choice := "" |}).
Proof.
  intros Hus. unfold handleMessage. cbn [From Body Chat].
  unfold getUserState. destruct (users b) as [g|] eqn:Hg; [|done].
  rewrite decide_False by done. rewrite Hus.
  change (respond us (Text "Done") ord)
    with (Ok (A:=UserState * option (string * markup))
            ({| State := ""; Data := Data us; Choice := "" |},
             Some ("I learned these facts about you: "
                     +:+ factsToStr (Data us) ord +:+ "Until next time!",
                   RemoveKeyboard))).
  cbn [rbind]. destruct (Save _ _ _ _ _) as [disk' err].
  eexists. split; [reflexivity|]. cbn [sent users]. split; [done|].
  unfold index. cbn [entries default from_option id]. apply lookup_insert_eq.
Qed.

End dispatcher_facts.

(** ** The tests of the repository, replayed on the embedding *)

Example TestStartNewUser :
  ∃ u reply, HandleCommandStart NewUserState [] = (u, reply)
    ∧ State u = StateChoosing
    ∧ Contains reply "I will hold a more complex conversation with you".
Proof.
  eexists _, _. split; [reflexivity|]. split; [done|].
  by exists "Hi! My name is Doctor Botter. ",
            ". Why don't you tell me something about yourself?".
Qed.

Example TestStartKnownUser :
  ∃ u reply,
    HandleCommandStart (set_Data (Some {[ "age" := "30" ]}) NewUserState)
      [("age", "30")] = (u, reply)
    ∧ Contains reply "You already told me your" ∧ Contains reply "age".
Proof.
  eexists _, _. split; [reflexivity|]. split.
  - by exists "Hi! My name is Doctor Botter. ",
      " age. Why don't you tell me something more about yourself? Or change anything I already know.".
  - by exists "Hi! My name is Doctor Botter. You already told me your ",
      ". Why don't you tell me something more about yourself? Or change anything I already know.".
Qed.

Example TestPredefinedFlow_Age :
  let u0 := (HandleCommandStart NewUserState []).1 in
  ∃ u1 u2 u3 reply2 reply3,
    HandleText u0 "Age" []
      = Ok (u1, ("Your age? Yes, I would love to hear about that!", false, false))
    ∧ State u1 = StateTypingReply ∧ Choice u1 = "age"
    ∧ HandleText u1 "30" [("age", "30")] = Ok (u2, (reply2, true, false))
    ∧ State u2 = StateChoosing ∧ index (Data u2) "age" = Some "30"
    ∧ Contains reply2 "Neat! Just so you know"
    ∧ HandleText u2 "Done" [("age", "30")] = Ok (u3, (reply3, false, true))
    ∧ Contains reply3 "I learned these facts about you".
Proof.
  eexists _, _, _, _, _. split_and!; try (vm_compute; reflexivity).
  - by eexists "", _.
  - by eexists "", _.
Qed.

Example TestCustomCategoryFlow :
  let u0 := (HandleCommandStart NewUserState []).1 in
  ∃ u1 u2 u3 reply1 reply3,
    HandleText u0 "Something else..." [] = Ok (u1, (reply1, false, false))
    ∧ State u1 = StateTypingChoice
    ∧ Contains reply1 "please send me the category first"
    ∧ HandleText u1 "Most impressive skill" []
      = Ok (u2, ("Your most impressive skill? Yes, I would love to hear about that!",
                 false, false))
    ∧ State u2 = StateTypingReply ∧ Choice u2 = "most impressive skill"
    ∧ HandleText u2 "Go programming" [("most impressive skill", "go programming")]
      = Ok (u3, (reply3, true, false))
    ∧ State u3 = StateChoosing
    ∧ index (Data u3) "most impressive skill" = Some "go programming"
    ∧ Contains reply3 "this is what you already told me".
Proof.
  eexists _, _, _, _, _. split_and!; try (vm_compute; reflexivity).
  - by eexists "Alright, ", _.
  - by eexists "Neat! Just so you know, ", _.
Qed.

Example TestStorageSaveLoad :
  let st := NewStorage "state.json" in
  let saved := Save st ∅ one_user None None in
  ∃ loaded u,
    saved.2 = None
    ∧ Load st saved.1 None = (Some loaded, None)
    ∧ size loaded = 1%nat ∧ loaded !! 42 = Some (Some u)
    ∧ index (Data u) "age" = Some "30".
Proof.
  exists (entries one_user),
    {| State := StateChoosing; Data := Some {[ "age" := "30" ]}; Choice := "" |}.
  split_and!; vm_compute; reflexivity.
Qed.

Example TestStorageLoadNonExisting :
  ∃ loaded,
    Load (NewStorage "no_such_file.json") (∅ : gmap string (@text plain_syntax)) None
      = (Some loaded, None)
    ∧ size loaded = 0%nat.
Proof. eexists. split; vm_compute; reflexivity. Qed.

Example TestFactsToStrEmpty : factsToStr (Some ∅) [] = nl +:+ nl.
Proof. reflexivity. Qed.

(** * Further properties of the program *)

(** ** Texts and replies *)

Section replies.
Context `{Unicode}.

Lemma HandleText_reply (u u' : UserState) (text reply : string)
    (ord : list (string * string)) (kb d : bool) :
  HandleText u text ord = Ok (u', (reply, kb, d)) → reply ≠ "".
Proof.
  unfold HandleText, handleChoosing, handleTypingChoice, handleTypingReply,
    reply_known, reply_unknown, assign.
  intros HT.
  repeat (case_decide || case_match); simplify_eq/=;
    first [done | by apply append_nonempty].
Qed.

(** [X1] [HandleText] reports [done = true] for the text "Done" and for no
    other text. *)
Theorem done_flag_only_for_Done (u u' : UserState) (text reply : string)
    (ord : list (string * string)) (kb d : bool) :
  HandleText u text ord = Ok (u', (reply, kb, d)) →
  d = true ↔ text = "Done".
Proof.
  unfold HandleText. destruct (decide (text = "Done")) as [Hd|Hd].
  { intros [= _ _ _ <-]. by split. }
  assert (d = false → d = true ↔ text = "Done") as Hfalse.
  { intros ->. by split. }
  unfold handleChoosing, handleTypingChoice, handleTypingReply, assign.
  intros HT. apply Hfalse.
  repeat (case_decide || case_match); by simplify_eq/=.
Qed.

Lemma outgoing_Some (reply : string) (removeKeyboard withKeyboard : bool) :
  reply ≠ "" →
  outgoing reply removeKeyboard withKeyboard
  = Some (reply, markup_of removeKeyboard withKeyboard).
Proof. intros Hr. unfold outgoing. by rewrite decide_False. Qed.

Lemma HandleCommandStart_reply (u : UserState) (ord : list (string * string)) :
  (HandleCommandStart u ord).2 ≠ "".
Proof. unfold HandleCommandStart. cbn. case_decide; by apply append_nonempty. Qed.

(** Every command and every non-empty text is answered. *)
Lemma only_empty_text_is_unanswered (u u' : UserState) (b : body)
    (ord : list (string * string)) (out : option (string * markup)) :
  respond u b ord = Ok (u', out) →
  out = None ↔ b = Text "".
Proof.
  unfold respond. destruct b as [name|text].
  - repeat case_decide.
    + pose proof (HandleCommandStart_reply u ord) as Hr.
      destruct (HandleCommandStart u ord) as [u1 r]. cbn in Hr.
      rewrite outgoing_Some by done. intros [= _ <-]. by split.
    + unfold HandleShowData. rewrite outgoing_Some by by apply append_nonempty.
      intros [= _ <-]. by split.
    + intros [= _ <-]. by split.
  - case_decide as Ht.
    + intros [= _ <-]. by subst.
    + destruct (HandleText u text ord) as [[u1 [[reply kb] d]]|msg] eqn:HT;
        cbn; [|done].
      apply HandleText_reply in HT.
      rewrite outgoing_Some by done. intros [= _ <-]. split; [done|].
      intros [= ->]. done.
Qed.

(** [X2] Whatever state string the session came with, after [HandleText]
    its state is one of "", "choosing", "typing_choice", "typing_reply". *)
Theorem HandleText_leaves_known_state (u u' : UserState) (text : string)
    (ord : list (string * string)) (a : answer) :
  HandleText u text ord = Ok (u', a) → known_state (State u').
Proof.
  intros HT%HandleText_transition. unfold known_state.
  destruct HT; cbn; auto.
Qed.

Lemma HandleText_choosing_branch (u : UserState) (text : string)
    (ord : list (string * string)) :
  choosing u → text ≠ "Done" →
  HandleText u text ord = Ok (handleChoosing (set_State StateChoosing u) text).
Proof.
  intros [Hc Hr] Hd. unfold HandleText. rewrite decide_False by done.
  destruct (decide (State u = StateChoosing)) as [Hs|Hs].
  - by rewrite <-Hs, set_State_same.
  - by rewrite !decide_False by done.
Qed.

(** [X3] A session whose state is none of the three named ones, such as a
    terminated session, is handled exactly as if it were in "choosing". *)
Theorem unknown_state_is_choosing (u : UserState) (text : string)
    (ord : list (string * string)) :
  choosing u →
  HandleText u text ord = HandleText (set_State StateChoosing u) text ord.
Proof.
  intros [Hc Hr]. destruct (decide (State u = StateChoosing)) as [Hs|Hs].
  { by rewrite <-Hs, set_State_same. }
  unfold HandleText. cbn [State set_State Data Choice set_Choice].
  destruct (decide (text = "Done")) as [Hd|Hd]; [done|].
  rewrite (decide_True (P := StateChoosing = StateChoosing)) by done.
  by rewrite !decide_False by done.
Qed.

Lemma transition_keeps_facts (u u' : UserState) (text k : string) :
  transition u text u' →
  is_Some (index (Data u) k) → is_Some (index (Data u') k).
Proof.
  destruct 1; try done. unfold index. cbn.
  replace (Data u) with (Some g). cbn.
  rewrite lookup_insert. by case_decide.
Qed.

(** *** The branches of [HandleText], with their replies *)

Lemma HandleText_store (u : UserState) (g : gmap string string) (v : string)
    (ord : list (string * string)) :
  State u = StateTypingReply → Choice u ≠ "" → Data u = Some g → v ≠ "Done" →
  HandleText u v ord =
  Ok ({| State := StateChoosing; Data := Some (<[Choice u:=ToLower v]> g);
         Choice := "" |},
      ("Neat! Just so you know, this is what you already told me:"
         +:+ factsToStr (Some (<[Choice u:=ToLower v]> g)) ord
         +:+ "You can tell me more, or change your opinion on something.",
       true, false)).
Proof.
  intros Hs Hc Hg Hv. unfold HandleText.
  rewrite decide_False by done. rewrite Hs.
  do 2 rewrite decide_False by done. rewrite decide_True by done.
  unfold handleTypingReply. rewrite decide_False by done. by rewrite Hg.
Qed.

Lemma HandleText_known_preset (u : UserState) (p existing : string)
    (ord : list (string * string)) :
  choosing u → is_preset p = true →
  index (Data u) (ToLower p) = Some existing →
  HandleText u p ord =
  Ok ({| State := StateChoosing; Data := Data u; Choice := ToLower p |},
      (reply_known (ToLower p) existing, false, false)).
Proof.
  intros Hu Hp Hk. destruct (is_preset_lower p Hp) as (Hd & _).
  rewrite HandleText_choosing_branch by done.
  unfold handleChoosing. rewrite Hp. cbn. by rewrite Hk.
Qed.

Lemma HandleText_fresh_preset (u : UserState) (p : string)
    (ord : list (string * string)) :
  choosing u → is_preset p = true → index (Data u) (ToLower p) = None →
  HandleText u p ord =
  Ok ({| State := StateTypingReply; Data := Data u; Choice := ToLower p |},
      (reply_unknown (ToLower p), false, false)).
Proof.
  intros Hu Hp Hk. destruct (is_preset_lower p Hp) as (Hd & _).
  rewrite HandleText_choosing_branch by done.
  unfold handleChoosing. rewrite Hp. cbn. by rewrite Hk.
Qed.

Lemma HandleText_fallback (u : UserState) (v : string)
    (ord : list (string * string)) :
  choosing u → is_preset v = false → v ≠ "Something else..." → v ≠ "Done" →
  HandleText u v ord =
  Ok ({| State := StateChoosing; Data := Data u; Choice := Choice u |},
      (fallback, true, false)).
Proof.
  intros Hu Hp Hs Hd. rewrite HandleText_choosing_branch by done.
  unfold handleChoosing. rewrite Hp. by rewrite decide_False by done.
Qed.

Lemma buttons_spec (text : string) :
  text ∈ buttons ↔
  is_preset text = true ∨ text = "Something else..." ∨ text = "Done".
Proof.
  change buttons with ["Age"; "Favourite colour"; "Number of siblings";
                       "Something else..."; "Done"].
  rewrite !elem_of_cons, elem_of_nil, is_preset_cases. tauto.
Qed.

Lemma not_button (text : string) :
  text ∉ buttons ↔
  is_preset text = false ∧ text ≠ "Something else..." ∧ text ≠ "Done".
Proof.
  rewrite buttons_spec. destruct (is_preset text); split.
  - intros Hn. destruct Hn. by left.
  - by intros [? _].
  - intros Hn. split_and!; [done|..]; intros ->; apply Hn; auto.
  - intros (_ & ? & ?) [?|[?|?]]; done.
Qed.

Lemma Ok_reply_inj (u1 u2 : UserState) (r1 r2 : string) (k1 k2 d1 d2 : bool) :
  Ok (u1, (r1, k1, d1)) = Ok (u2, (r2, k2, d2)) → r1 = r2.
Proof. congruence. Qed.

(** The first byte of a string. *)
Lemma head_differs (c1 c2 : ascii) (s1 s2 : string) :
  c1 ≠ c2 → String c1 s1 ≠ String c2 s2.
Proof. intros Hc [= ? _]. done. Qed.

(** [X4] Storing a value: the reply shows the new "key - value" line and
    the line of every other fact, and the keyboard is shown again. *)
Theorem stored_value_is_shown (u : UserState) (g : gmap string string)
    (v : string) (ord : list (string * string)) :
  State u = StateTypingReply → Choice u ≠ "" → Data u = Some g → v ≠ "Done" →
  ranges (Some (<[Choice u:=ToLower v]> g)) ord →
  ∃ u' reply,
    HandleText u v ord = Ok (u', (reply, true, false))
    ∧ Contains reply (Choice u +:+ " - " +:+ ToLower v)
    ∧ ∀ k w, k ≠ Choice u → g !! k = Some w →
             Contains reply (k +:+ " - " +:+ w).
Proof.
  intros Hs Hc Hg Hv Hord. eexists _, _.
  split; [by apply HandleText_store|]. split.
  - apply Contains_app_r, Contains_app_l, fact_line_in_factsToStr; [done|].
    apply lookup_insert_eq.
  - intros k w Hk Hw.
    apply Contains_app_r, Contains_app_l, fact_line_in_factsToStr; [done|].
    unfold index. cbn. by rewrite lookup_insert_ne.
Qed.

(** [X5] A preset category that is already known is not reopened by its
    button: the text sent next, unless it is itself a button, is answered
    with the fallback reply and the facts stay as they were. *)
Theorem known_preset_is_not_reopened (u : UserState) (p existing v : string)
    (ord1 ord2 : list (string * string)) :
  choosing u → is_preset p = true →
  index (Data u) (ToLower p) = Some existing → v ∉ buttons →
  ∃ u1 a1 u2,
    HandleText u p ord1 = Ok (u1, a1)
    ∧ HandleText u1 v ord2 = Ok (u2, (fallback, true, false))
    ∧ Data u2 = Data u ∧ State u2 = StateChoosing.
Proof.
  intros Hu Hp Hk (Hv & Hs & Hd)%not_button. eexists _, _, _.
  split; [by apply HandleText_known_preset|].
  split; [by apply HandleText_fallback|]. done.
Qed.

(** [X6] In a session that is choosing, the fallback reply is given to
    exactly the texts that are not on a button of the main keyboard. *)
Theorem fallback_iff_not_a_button (u u' : UserState) (text reply : string)
    (ord : list (string * string)) (kb d : bool) :
  choosing u →
  HandleText u text ord = Ok (u', (reply, kb, d)) →
  reply = fallback ↔ text ∉ buttons.
Proof.
  intros Hu HT. rewrite not_button.
  destruct (decide (text = "Done")) as [->|Hd].
  { unfold HandleText in HT. cbn in HT. apply Ok_reply_inj in HT as <-.
    split; [|by intros (_ & _ & ?)]. intros Heq. exfalso. revert Heq.
    by apply head_differs. }
  destruct (decide (text = "Something else...")) as [->|Hs].
  { rewrite HandleText_choosing_branch in HT by done.
    unfold handleChoosing in HT. cbn in HT. apply Ok_reply_inj in HT as <-.
    split; [|by intros (_ & ? & _)]. intros Heq. exfalso. revert Heq.
    by apply head_differs. }
  destruct (is_preset text) eqn:Hp.
  - split; [|by intros (? & _)]. intros ->. exfalso.
    destruct (index (Data u) (ToLower text)) as [existing|] eqn:Hk.
    + rewrite (HandleText_known_preset u text existing) in HT by done.
      apply Ok_reply_inj in HT. revert HT. by apply head_differs.
    + rewrite (HandleText_fresh_preset u text) in HT by done.
      apply Ok_reply_inj in HT. revert HT. by apply head_differs.
  - rewrite HandleText_fallback in HT by done. apply Ok_reply_inj in HT as <-.
    by split.
Qed.

(** [X7] The preset flow: in a session that is choosing, a preset label
    that is not known yet followed by any text other than "Done" stores the
    lower-cased text under the lower-cased label and returns to "choosing"
    with no category pending. *)
Theorem preset_then_value_is_stored (u : UserState) (g : gmap string string)
    (p v : string) (ord1 ord2 : list (string * string)) :
  choosing u → is_preset p = true → Data u = Some g →
  g !! ToLower p = None → v ≠ "Done" →
  ∃ a1 a2,
    HandleText u p ord1
      = Ok ({| State := StateTypingReply; Data := Data u; Choice := ToLower p |},
            a1)
    ∧ HandleText {| State := StateTypingReply; Data := Data u;
                    Choice := ToLower p |} v ord2
      = Ok ({| State := StateChoosing;
               Data := Some (<[ToLower p:=ToLower v]> g); Choice := "" |}, a2).
Proof.
  intros Hu Hp Hg Hk Hv. eexists _, _. split.
  - apply HandleText_fresh_preset; [done..|]. unfold index. by rewrite Hg.
  - rewrite (HandleText_store _ g); [done|done| |done|done].
    by apply is_preset_lower.
Qed.

Lemma Join_nonempty (x : string) (l : list string) (sep : string) :
  x ≠ "" → Join (x :: l) sep ≠ "".
Proof.
  intros Hx. unfold Join. destruct l as [|y l]; [done|].
  change (x +:+ sep +:+ String.concat sep (y :: l) ≠ "").
  by apply append_nonempty.
Qed.

(** [X8] [factsToStr] returns the empty marker, two line feeds, exactly
    when there is no fact. *)
Theorem factsToStr_marker_iff_no_fact (data : gomap string string)
    (ord : list (string * string)) :
  ranges data ord →
  factsToStr data ord = nl +:+ nl ↔ len data = 0%nat.
Proof.
  intros Hord. unfold factsToStr.
  destruct (decide (len data = 0%nat)) as [Hz|Hz]; [done|].
  split; [|done]. intros Heq. exfalso.
  apply ranges_length in Hord. destruct ord as [|[k w] ord]; [done|].
  pose proof (Join_nonempty (fact_line (k, w)) (fact_line <$> ord) nl) as Hj.
  change (fact_line <$> (k, w) :: ord)
    with (fact_line (k, w) :: (fact_line <$> ord)) in Heq.
  destruct (Join _ nl) as [|c j].
  - apply Hj; [|done]. unfold fact_line. cbn.
    intros He. destruct k; discriminate.
  - injection Heq as Heq. destruct j; discriminate.
Qed.

End replies.

Lemma done_flag_witness :
  (false = true ↔ "30" = "Done") ∧ (true = true ↔ "Done" = "Done").
Proof.
  split.
  - apply (done_flag_only_for_Done awaiting_age
             {| State := StateChoosing; Data := Some {[ "age" := "30" ]};
                Choice := "" |}
             "30"
             ("Neat! Just so you know, this is what you already told me:"
                +:+ factsToStr (Some {[ "age" := "30" ]}) [("age", "30")]
                +:+ "You can tell me more, or change your opinion on something.")
             [("age", "30")] true false).
    vm_compute. reflexivity.
  - apply (done_flag_only_for_Done awaiting_age
             {| State := ""; Data := Some ∅; Choice := "" |}
             "Done"
             ("I learned these facts about you: " +:+ factsToStr (Some ∅) []
                +:+ "Until next time!")
             [] false true).
    vm_compute. reflexivity.
Defined.

Lemma known_state_witness : known_state StateChoosing.
Proof.
  apply (HandleText_leaves_known_state paused
           {| State := StateChoosing; Data := Data two_facts; Choice := "" |}
           "hello" [] (fallback, true, false)).
  vm_compute. reflexivity.
Defined.

Lemma unknown_state_witness :
  HandleText paused "Age" [] = HandleText (set_State StateChoosing paused) "Age" []
  ∧ HandleText terminated "Something else..." []
    = HandleText (set_State StateChoosing terminated) "Something else..." [].
Proof.
  split.
  - apply (unknown_state_is_choosing paused "Age" []). by split.
  - apply (unknown_state_is_choosing terminated "Something else..." []).
    by split.
Defined.

Lemma stored_value_is_shown_witness :
  ∃ u' reply,
    HandleText awaiting_age "Thirty" [("age", "thirty")]
      = Ok (u', (reply, true, false))
    ∧ Contains reply (Choice awaiting_age +:+ " - " +:+ ToLower "Thirty")
    ∧ ∀ k w, k ≠ Choice awaiting_age → (∅ : gmap string string) !! k = Some w →
             Contains reply (k +:+ " - " +:+ w).
Proof.
  apply (stored_value_is_shown awaiting_age ∅ "Thirty" [("age", "thirty")]);
    try done.
  unfold ranges. vm_compute. reflexivity.
Defined.

Lemma known_preset_is_not_reopened_witness :
  ∃ u1 a1 u2,
    HandleText terminated "Age" [] = Ok (u1, a1)
    ∧ HandleText u1 "31" [] = Ok (u2, (fallback, true, false))
    ∧ Data u2 = Data terminated ∧ State u2 = StateChoosing.
Proof.
  apply (known_preset_is_not_reopened terminated "Age" "30" "31" [] []).
  - by split.
  - reflexivity.
  - by vm_compute.
  - apply not_button. by vm_compute.
Defined.

Lemma fallback_iff_not_a_button_witness :
  (fallback = fallback ↔ "hello" ∉ buttons)
  ∧ ("Your age? I already know the following about that: 30" = fallback
     ↔ "Age" ∉ buttons).
Proof.
  split.
  - apply (fallback_iff_not_a_button paused
             {| State := StateChoosing; Data := Data two_facts; Choice := "" |}
             "hello" fallback [] true false); [by split|].
    vm_compute. reflexivity.
  - apply (fallback_iff_not_a_button paused
             {| State := StateChoosing; Data := Data two_facts; Choice := "age" |}
             "Age" "Your age? I already know the following about that: 30"
             [] false false); [by split|].
    vm_compute. reflexivity.
Defined.

Lemma preset_then_value_witness :
  ∃ a1 a2,
    HandleText NewUserState "Number of siblings" []
      = Ok ({| State := StateTypingReply; Data := Data NewUserState;
               Choice := ToLower "Number of siblings" |}, a1)
    ∧ HandleText {| State := StateTypingReply; Data := Data NewUserState;
                    Choice := ToLower "Number of siblings" |} "Two" []
      = Ok ({| State := StateChoosing;
               Data := Some (<[ToLower "Number of siblings":=ToLower "Two"]> ∅);
               Choice := "" |}, a2).
Proof.
  apply (preset_then_value_is_stored NewUserState ∅ "Number of siblings" "Two"
           [] []); done.
Defined.

Lemma factsToStr_marker_witness :
  (factsToStr (Some ∅) [] = nl +:+ nl ↔ len (Some (∅ : gmap string string)) = 0%nat)
  ∧ (factsToStr (Data two_facts) [("favourite colour", "red"); ("age", "30")]
     = nl +:+ nl ↔ len (Data two_facts) = 0%nat).
Proof.
  split.
  - apply (factsToStr_marker_iff_no_fact (Some ∅) []).
    unfold ranges. vm_compute. reflexivity.
  - apply (factsToStr_marker_iff_no_fact (Data two_facts)), two_facts_ranges.
Defined.

(** ** The snapshot on disk *)

Section snapshot_facts.
Context `{Syntax}.

Lemma length_append (a b : string) :
  String.length (a +:+ b) = (String.length a + String.length b)%nat.
Proof.
  induction a as [|c a IH]; [done|].
  change (S (String.length (a +:+ b)) = S (String.length a + String.length b)).
  by rewrite IH.
Qed.

Lemma tmpPath_differs (p : string) : p ≠ p +:+ ".tmp".
Proof.
  intros Hp. apply (f_equal String.length) in Hp.
  rewrite length_append in Hp. cbn in Hp. lia.
Qed.

(** [X9] A [Save] that reports an error leaves the snapshot at its path
    exactly as it was; whatever the failed write left behind is at the
    temporary path only. *)
Theorem failed_Save_keeps_snapshot (s : Storage) (fs fs' : gmap string text)
    (users : gomap Z (option UserState))
    (wfault : option (string * option text)) (rfault : option string)
    (err : error) :
  Save s fs users wfault rfault = (fs', Some err) →
  fs' !! path s = fs !! path s
  ∧ ∀ p, p ≠ path s +:+ ".tmp" → fs' !! p = fs !! p.
Proof.
  pose proof (tmpPath_differs (path s)) as Hne.
  unfold Save, WriteFile, Rename.
  destruct wfault as [[what [partial|]]|].
  - intros [= <- _]. split; [by rewrite lookup_insert_ne|].
    intros p Hp. by rewrite lookup_insert_ne.
  - by intros [= <- _].
  - destruct rfault as [what|].
    + intros [= <- _]. split; [by rewrite lookup_insert_ne|].
      intros p Hp. by rewrite lookup_insert_ne.
    + by rewrite lookup_insert_eq.
Qed.

(** [X10] A [Save] that reports no error puts the new snapshot at the
    path, leaves no file at the temporary path and changes no other file. *)
Theorem Save_footprint (s : Storage) (fs fs' : gmap string text)
    (users : gomap Z (option UserState))
    (wfault : option (string * option text)) (rfault : option string) :
  Save s fs users wfault rfault = (fs', None) →
  fs' !! path s = Some (MarshalIndent {| Users := users |})
  ∧ fs' !! (path s +:+ ".tmp") = None
  ∧ ∀ p, p ≠ path s → p ≠ path s +:+ ".tmp" → fs' !! p = fs !! p.
Proof.
  pose proof (tmpPath_differs (path s)) as Hne.
  unfold Save, WriteFile, Rename.
  destruct wfault as [[what [partial|]]|]; [done..|].
  destruct rfault as [what|]; [done|].
  rewrite lookup_insert_eq. intros [= <-]. split_and!.
  - by rewrite lookup_insert_eq.
  - rewrite lookup_insert_ne by done. by rewrite lookup_delete_eq.
  - intros p Hp Ht. rewrite lookup_insert_ne by done.
    rewrite lookup_delete_ne by done. by rewrite lookup_insert_ne.
Qed.

Lemma decPersisted_no_users (fields : list (string * value))
    (d : persistedData) :
  no_users (JObject fields) = true →
  Users d = None ∨ Users d = Some ∅ →
  ∃ d', decPersisted (JObject fields) d = Val d'
        ∧ (Users d' = None ∨ Users d' = Some ∅).
Proof.
  cbn [no_users decPersisted]. revert d.
  induction fields as [|[k v] fields IH]; intros d Hall Hd; cbn [foldM].
  - by exists d.
  - cbn [forallb fst snd] in Hall. apply andb_prop in Hall as [Hkv Hall].
    cbn [fst snd]. destruct (fold_eq "users" k); cbn [ebind].
    + destruct v; try done. cbn [decUsers ebind]. apply IH; [done|by left].
    + by apply IH.
Qed.

(** [X11] [Load] returns either an allocated collection and no error, or
    no collection and an error; a snapshot whose document is null, or an
    object whose "users" is null or missing, gives the empty collection, not
    a nil one. *)
Theorem Load_collection_or_error (s : Storage) (fs : gmap string text) :
  (∀ fault users err,
     Load s fs fault = (users, err) →
     (err = None ∧ users ≠ None) ∨ (users = None ∧ err ≠ None))
  ∧ (∀ b j,
       fs !! path s = Some b → scan b = Some j → no_users j = true →
       Load s fs None = (Some ∅, None)).
Proof.
  split.
  - intros fault users err. unfold Load.
    destruct (ReadFile fs (path s) fault) as [b|e].
    + destruct (Unmarshal b _) as [[us]|e].
      * case_decide as Hn; intros [= <- <-]; left; by cbn in *.
      * intros [= <- <-]. by right.
    + destruct (IsNotExist e); intros [= <- <-]; [by left | by right].
  - intros b j Hb Hj Hno. unfold Load, ReadFile, Unmarshal. rewrite Hb, Hj.
    destruct j as [| | | | |fields]; try done.
    destruct (decPersisted_no_users fields {| Users := Some ∅ |} Hno)
      as ([us] & Hdec & Hus); [by right|].
    rewrite Hdec. cbn [Users] in *.
    destruct Hus as [-> | ->]; [by rewrite decide_True|].
    by rewrite decide_False.
Qed.

End snapshot_facts.

Lemma failed_Save_witness :
  let fs : gmap string (@text plain_syntax) :=
    {[ "conversationbot.json" := Some JNull ]} in
  let fs' : gmap string (@text plain_syntax) :=
    <["conversationbot.json.tmp" := None]> fs in
  fs' !! "conversationbot.json" = fs !! "conversationbot.json"
  ∧ ∀ p, p ≠ "conversationbot.json" +:+ ".tmp" → fs' !! p = fs !! p.
Proof.
  intros fs fs'.
  apply (failed_Save_keeps_snapshot (NewStorage "conversationbot.json") fs fs'
           one_user (Some ("disk full", Some None)) None (IOError "disk full")).
  reflexivity.
Defined.

Lemma Save_footprint_witness :
  let fs : gmap string (@text plain_syntax) := {[ "notes.txt" := None ]} in
  ∃ fs',
    Save (NewStorage "conversationbot.json") fs one_user None None = (fs', None)
    ∧ fs' !! "conversationbot.json" = Some (MarshalIndent {| Users := one_user |})
    ∧ fs' !! ("conversationbot.json" +:+ ".tmp") = None
    ∧ ∀ p, p ≠ "conversationbot.json" → p ≠ "conversationbot.json" +:+ ".tmp" →
           fs' !! p = fs !! p.
Proof.
  intros fs. eexists. split; [reflexivity|].
  exact (Save_footprint (NewStorage "conversationbot.json") fs _ one_user
           None None eq_refl).
Defined.

Lemma Load_collection_or_error_witness :
  (((None : option error) = None
    ∧ Some (∅ : gmap Z (option UserState)) ≠ None)
   ∨ (Some (∅ : gmap Z (option UserState)) = None
      ∧ (None : option error) ≠ None))
  ∧ Load (NewStorage "conversationbot.json") null_users_disk None
    = (Some ∅, None)
  ∧ Load (NewStorage "conversationbot.json") userless_disk None
    = (Some ∅, None).
Proof.
  split_and!.
  - apply (proj1 (Load_collection_or_error (NewStorage "conversationbot.json")
                    null_users_disk) None (Some ∅) None).
    vm_compute. reflexivity.
  - apply (proj2 (Load_collection_or_error (NewStorage "conversationbot.json")
                    null_users_disk)
             (Some (JObject [("users", JNull)]))
             (JObject [("users", JNull)])); reflexivity.
  - apply (proj2 (Load_collection_or_error (NewStorage "conversationbot.json")
                    userless_disk)
             (Some (JObject [("version", JString "1")]))
             (JObject [("version", JString "1")])); reflexivity.
Defined.

(** ** The registry *)

Section registry_facts.

Lemma getUserState_present (users : gomap Z (option UserState)) (id : Z)
    (us : UserState) :
  index users id = Some (Some us) → getUserState users id = (us, users).
Proof.
  intros Hus. unfold getUserState. destruct users as [g|]; [|done].
  rewrite decide_False by done. by rewrite Hus.
Qed.

Lemma insert_new_session (g : gmap Z (option UserState)) (id : Z) :
  index (Some (<[id:=Some NewUserState]> g)) id = Some (Some NewUserState)
  ∧ ∀ j, j ≠ id → index (Some (<[id:=Some NewUserState]> g)) j = g !! j.
Proof.
  split; [apply lookup_insert_eq|]. intros j Hj. by apply lookup_insert_ne.
Qed.

Lemma index_nil (id : Z) :
  index (None : gomap Z (option UserState)) id = None.
Proof. apply lookup_empty. Qed.

Lemma getUserState_cases (users : gomap Z (option UserState)) (id : Z) :
  index (getUserState users id).2 id = Some (Some (getUserState users id).1)
  ∧ (∀ j, j ≠ id → index (getUserState users id).2 j = index users j)
  ∧ (getUserState users id).1 = match index users id with
                                | Some (Some old) => old
                                | _ => NewUserState
                                end.
Proof.
  unfold getUserState. destruct users as [g|].
  - rewrite decide_False by done.
    destruct (index (Some g) id) as [[old|]|] eqn:Hid; cbn [fst snd].
    + by split_and!.
    + destruct (insert_new_session g id) as (Ha & Hb).
      split_and!; [exact Ha | exact Hb | done].
    + destruct (insert_new_session g id) as (Ha & Hb).
      split_and!; [exact Ha | exact Hb | done].
  - rewrite decide_True by done.
    destruct (insert_new_session ∅ id) as (Ha & Hb).
    change (index (Some ∅) id)
      with (index (None : gomap Z (option UserState)) id).
    rewrite index_nil. cbn [fst snd].
    split_and!; [exact Ha | | done].
    intros j Hj. exact (Hb j Hj).
Qed.

(** [X12] [getUserState] finds the session of the user or creates one: the
    registry it leaves is allocated and holds the returned session for the
    user, every other entry is as before, and the session is the one the
    registry had, or a new one where it had none or a nil pointer. *)
Theorem getUserState_finds_or_creates (users : gomap Z (option UserState))
    (id : Z) :
  let '(us, users') := getUserState users id in
  users' ≠ None ∧ index users' id = Some (Some us)
  ∧ (∀ j, j ≠ id → index users' j = index users j)
  ∧ us = match index users id with
         | Some (Some old) => old
         | _ => NewUserState
         end.
Proof.
  unfold getUserState. destruct users as [g|].
  - rewrite decide_False by done.
    destruct (index (Some g) id) as [[old|]|] eqn:Hid.
    + by split_and!.
    + destruct (insert_new_session g id) as (Hb & Hc).
      split_and!; [done | exact Hb | exact Hc | done].
    + destruct (insert_new_session g id) as (Hb & Hc).
      split_and!; [done | exact Hb | exact Hc | done].
  - rewrite decide_True by done.
    destruct (insert_new_session ∅ id) as (Hb & Hc).
    rewrite index_nil.
    change (index (Some ∅) id)
      with (index (None : gomap Z (option UserState)) id).
    rewrite index_nil.
    split_and!; [done | exact Hb | exact Hc | done].
Qed.

(** [X13] Asking for the same user again changes nothing: the second call
    returns the session and the registry of the first. *)
Theorem getUserState_again (users : gomap Z (option UserState)) (id : Z) :
  getUserState (getUserState users id).2 id = getUserState users id.
Proof.
  destruct (getUserState_cases users id) as (Hid & _).
  destruct (getUserState users id) as [us users'].
  by apply getUserState_present.
Qed.

End registry_facts.

(** ** Messages *)

Section message_facts.
Context `{Unicode} `{Syntax}.

Lemma handleMessage_sender (b b' : Bot) (msg : Message) (id : Z)
    (ord : list (string * string))
    (wfault : option (string * option text)) (rfault : option string) :
  From msg = Some id →
  handleMessage b msg ord wfault rfault = Ok b' →
  ∃ us' out,
    respond (getUserState (users b) id).1 (Body msg) ord = Ok (us', out)
    ∧ users b' = Some (<[id:=Some us']> (entries (getUserState (users b) id).2))
    ∧ storage b' = storage b
    ∧ match out with
      | None => sent b' = sent b ∧ disk b' = disk b
      | Some (reply, kb) =>
          sent b' = sent b ++ [(Chat msg, reply, kb)]
          ∧ disk b' = (Save (storage b) (disk b) (users b') wfault rfault).1
      end.
Proof.
  intros Hid. unfold handleMessage. rewrite Hid.
  destruct (getUserState (users b) id) as [us users1]. cbn [fst snd].
  destruct (respond us (Body msg) ord) as [[us' out]|m]; cbn [rbind]; [|done].
  destruct out as [[reply kb]|].
  - destruct (Save _ _ _ _ _) as [disk' e] eqn:HS. intros [= <-].
    exists us', (Some (reply, kb)). cbn. by rewrite HS.
  - intros [= <-]. by exists us', None.
Qed.

Lemma handleMessage_returns (b : Bot) (msg : Message) (id : Z)
    (ord : list (string * string))
    (wfault : option (string * option text)) (rfault : option string)
    (us' : UserState) (out : option (string * markup)) :
  From msg = Some id →
  respond (getUserState (users b) id).1 (Body msg) ord = Ok (us', out) →
  ∃ b', handleMessage b msg ord wfault rfault = Ok b'.
Proof.
  intros Hid. unfold handleMessage. rewrite Hid.
  destruct (getUserState (users b) id) as [us users1]. cbn [fst snd].
  intros ->. cbn [rbind]. destruct out as [[reply kb]|]; [|by eexists].
  destruct (Save _ _ _ _ _). by eexists.
Qed.

(** Once the reply is sent, [handleMessage] ends with [save]. *)
Lemma handleMessage_saves (b b' : Bot) (msg : Message) (id : Z)
    (ord : list (string * string))
    (wfault : option (string * option text)) (rfault : option string)
    (us' : UserState) (reply : string) (kb : markup) :
  From msg = Some id →
  respond (getUserState (users b) id).1 (Body msg) ord
    = Ok (us', Some (reply, kb)) →
  handleMessage b msg ord wfault rfault
  = Ok (save {| storage := storage b;
                users := Some (<[id:=Some us']>
                                 (entries (getUserState (users b) id).2));
                disk := disk b;
                sent := sent b ++ [(Chat msg, reply, kb)] |}
          wfault rfault).
Proof.
  intros Hid. unfold handleMessage, save. rewrite Hid.
  destruct (getUserState (users b) id) as [us users1]. cbn [fst snd].
  intros ->. cbn [rbind storage users disk sent].
  by destruct (Save _ _ _ _ _).
Qed.

Lemma handleMessage_others (b b' : Bot) (msg : Message)
    (ord : list (string * string))
    (wfault : option (string * option text)) (rfault : option string) (j : Z) :
  handleMessage b msg ord wfault rfault = Ok b' →
  From msg ≠ Some j →
  index (users b') j = index (users b) j.
Proof.
  intros Hm Hj. destruct (From msg) as [id|] eqn:Hid.
  - destruct (handleMessage_sender b b' msg id ord wfault rfault Hid Hm)
      as (us' & out & _ & -> & _).
    destruct (getUserState_cases (users b) id) as (_ & Hothers & _).
    rewrite <-Hothers by congruence.
    unfold index at 1. cbn [entries default from_option Datatypes.id].
    rewrite lookup_insert_ne by congruence. done.
  - unfold handleMessage in Hm. rewrite Hid in Hm. by injection Hm as <-.
Qed.

Lemma handleMessage_local (b1 b2 b1' : Bot) (msg : Message) (id : Z)
    (ord : list (string * string))
    (wfault : option (string * option text)) (rfault : option string) :
  From msg = Some id →
  index (users b1) id = index (users b2) id →
  handleMessage b1 msg ord wfault rfault = Ok b1' →
  ∃ b2', handleMessage b2 msg ord wfault rfault = Ok b2'
         ∧ index (users b1') id = index (users b2') id.
Proof.
  intros Hid Heq Hm.
  destruct (handleMessage_sender b1 b1' msg id ord wfault rfault Hid Hm)
    as (us' & out & Hr & Hu & _).
  assert ((getUserState (users b1) id).1 = (getUserState (users b2) id).1)
    as Hs.
  { destruct (getUserState_cases (users b1) id) as (_ & _ & ->).
    destruct (getUserState_cases (users b2) id) as (_ & _ & ->).
    by rewrite Heq. }
  rewrite Hs in Hr.
  destruct (handleMessage_returns b2 msg id ord wfault rfault us' out Hid Hr)
    as [b2' Hm2].
  exists b2'. split; [done|].
  destruct (handleMessage_sender b2 b2' msg id ord wfault rfault Hid Hm2)
    as (us2 & out2 & Hr2 & Hu2 & _).
  rewrite Hr in Hr2. injection Hr2 as <- <-.
  rewrite Hu, Hu2. unfold index. cbn [entries default from_option Datatypes.id].
  by rewrite !lookup_insert_eq.
Qed.

Lemma Ok_out_inj {A B : Type} (a a' : A) (o o' : B) :
  Ok (a, o) = Ok (a', o') → o = o'.
Proof. congruence. Qed.

Lemma respond_reply (u u' : UserState) (bd : body)
    (ord : list (string * string)) (reply : string) (kb : markup) :
  respond u bd ord = Ok (u', Some (reply, kb)) → reply ≠ "".
Proof.
  assert (∀ r a c, outgoing r a c = Some (reply, kb) → reply ≠ "") as Hout.
  { intros r a c. unfold outgoing. case_decide; [done|]. by intros [= <- _]. }
  unfold respond. destruct bd as [name|text].
  - repeat case_decide.
    + destruct (HandleCommandStart u ord). intros Ho%Ok_out_inj. by eapply Hout.
    + destruct (HandleShowData u ord). intros Ho%Ok_out_inj. by eapply Hout.
    + intros Ho%Ok_out_inj. by eapply Hout.
  - case_decide; [done|].
    destruct (HandleText u text ord) as [[u1 [[r k] d]]|m]; cbn; [|done].
    intros Ho%Ok_out_inj. by eapply Hout.
Qed.

Lemma respond_keeps_facts (u u' : UserState) (bd : body)
    (ord : list (string * string)) (out : option (string * markup))
    (k : string) :
  respond u bd ord = Ok (u', out) →
  is_Some (index (Data u) k) → is_Some (index (Data u') k).
Proof.
  unfold respond. destruct bd as [name|text].
  - repeat case_decide.
    + unfold HandleCommandStart. by intros [= <- _].
    + unfold HandleShowData. by intros [= <- _].
    + by intros [= <- _].
  - case_decide; [by intros [= <- _]|].
    destruct (HandleText u text ord) as [[u1 [[r kb] d]]|m] eqn:HT; cbn;
      [|done].
    intros [= <- _]. apply HandleText_transition in HT.
    by apply (transition_keeps_facts u u1 text).
Qed.

Lemma respond_returns (u : UserState) (bd : body)
    (ord : list (string * string)) :
  Data u ≠ None →
  ∃ u' out, respond u bd ord = Ok (u', out) ∧ Data u' ≠ None.
Proof.
  intros Hg. unfold respond. destruct bd as [name|text].
  - repeat case_decide; by eexists _, _.
  - case_decide; [by eexists _, _|].
    destruct (HandleText_returns u text ord (λ _, Hg)) as (u' & [[r kb] d] & HT).
    rewrite HT. cbn. eexists _, _. split; [done|].
    apply HandleText_transition in HT.
    by apply (transition_allocated u u' text).
Qed.

Lemma handleMessage_allocated (b : Bot) (msg : Message)
    (ord : list (string * string))
    (wfault : option (string * option text)) (rfault : option string) :
  allocated (users b) →
  ∃ b', handleMessage b msg ord wfault rfault = Ok b' ∧ allocated (users b').
Proof.
  intros Hb. destruct (From msg) as [id|] eqn:Hid; cycle 1.
  { exists b. split; [|done]. unfold handleMessage. by rewrite Hid. }
  destruct (getUserState_cases (users b) id) as (_ & Hothers & Hus).
  assert (Data (getUserState (users b) id).1 ≠ None) as Hg.
  { rewrite Hus. destruct (index (users b) id) as [[old|]|] eqn:Hold; [|done..].
    by apply (Hb id). }
  destruct (respond_returns _ (Body msg) ord Hg) as (us' & out & Hr & Hg').
  destruct (handleMessage_returns b msg id ord wfault rfault us' out Hid Hr)
    as [b' Hm].
  exists b'. split; [done|].
  destruct (handleMessage_sender b b' msg id ord wfault rfault Hid Hm)
    as (us1 & out1 & Hr1 & Hu & _).
  rewrite Hr in Hr1. injection Hr1 as <- <-.
  intros j u Hj. destruct (decide (j = id)) as [->|Hne].
  - rewrite Hu in Hj. unfold index in Hj.
    cbn [entries default from_option Datatypes.id] in Hj.
    rewrite lookup_insert_eq in Hj. by injection Hj as <-.
  - apply (Hb j). rewrite <-Hj. symmetry.
    apply (handleMessage_others b b' msg ord wfault rfault j Hm). congruence.
Qed.

Lemma Save_path (s : Storage) (fs fs' : gmap string text)
    (users : gomap Z (option UserState))
    (wfault : option (string * option text)) (rfault : option string)
    (err : option error) :
  Save s fs users wfault rfault = (fs', err) →
  fs' !! path s = match err with
                  | Some _ => fs !! path s
                  | None => Some (MarshalIndent {| Users := users |})
                  end.
Proof.
  pose proof (tmpPath_differs (path s)) as Hne.
  unfold Save, WriteFile, Rename.
  destruct wfault as [[what [partial|]]|].
  - intros [= <- <-]. by rewrite lookup_insert_ne.
  - by intros [= <- <-].
  - destruct rfault as [what|].
    + intros [= <- <-]. by rewrite lookup_insert_ne.
    + rewrite lookup_insert_eq. intros [= <- <-]. by rewrite lookup_insert_eq.
Qed.

Lemma Save_without_fault (s : Storage) (fs : gmap string text)
    (users : gomap Z (option UserState)) :
  (Save s fs users None None).2 = None.
Proof. unfold Save, WriteFile, Rename. by rewrite lookup_insert_eq. Qed.

(** [X14] Messages that are dropped.  Without a sender the bot is left as
    it is.  An empty text sends nothing and writes nothing to disk, yet the
    sender is in the registry afterwards, with the session it had or a new
    one. *)
Theorem dropped_messages (b : Bot) (msg : Message)
    (ord : list (string * string))
    (wfault : option (string * option text)) (rfault : option string) :
  (From msg = None → handleMessage b msg ord wfault rfault = Ok b)
  ∧ (∀ id, From msg = Some id → Body msg = Text "" →
       ∃ b', handleMessage b msg ord wfault rfault = Ok b'
             ∧ sent b' = sent b ∧ disk b' = disk b
             ∧ index (users b') id
               = Some (Some (getUserState (users b) id).1)).
Proof.
  split.
  - intros Hid. unfold handleMessage. by rewrite Hid.
  - intros id Hid Hbody.
    destruct (handleMessage_returns b msg id ord wfault rfault
                (getUserState (users b) id).1 None Hid) as [b' Hm].
    { by rewrite Hbody. }
    exists b'. split; [done|].
    destruct (handleMessage_sender b b' msg id ord wfault rfault Hid Hm)
      as (us' & out & Hr & Hu & _ & Hout).
    rewrite Hbody in Hr. injection Hr as <- <-. destruct Hout as [-> ->].
    split_and!; [done..|]. rewrite Hu. apply lookup_insert_eq.
Qed.

(** [X15] A command or a non-empty text from a sender, once handled, has
    added exactly one message to those sent: it goes to the chat of the
    message and its text is not empty. *)
Theorem one_reply_per_message (b b' : Bot) (msg : Message) (id : Z)
    (ord : list (string * string))
    (wfault : option (string * option text)) (rfault : option string) :
  From msg = Some id → Body msg ≠ Text "" →
  handleMessage b msg ord wfault rfault = Ok b' →
  ∃ reply kb, sent b' = sent b ++ [(Chat msg, reply, kb)] ∧ reply ≠ "".
Proof.
  intros Hid Hbody Hm.
  destruct (handleMessage_sender b b' msg id ord wfault rfault Hid Hm)
    as (us' & out & Hr & _ & _ & Hout).
  destruct out as [[reply kb]|].
  - exists reply, kb. split; [by destruct Hout|]. by eapply respond_reply.
  - apply only_empty_text_is_unanswered in Hr. destruct Hbody. by apply Hr.
Qed.

(** [X16] A failure of [Save] does not stop the bot and is not seen by
    the user: a message that is handled when the disk works is handled
    whatever fault the write or the rename meets, to the same registry and
    the same messages sent.  On disk the snapshot is then either the one
    that was there or the one of the new registry. *)
Theorem save_failure_is_not_fatal (b b0 : Bot) (msg : Message)
    (ord : list (string * string))
    (wfault : option (string * option text)) (rfault : option string) :
  handleMessage b msg ord None None = Ok b0 →
  ∃ b1,
    handleMessage b msg ord wfault rfault = Ok b1
    ∧ storage b1 = storage b0 ∧ users b1 = users b0 ∧ sent b1 = sent b0
    ∧ (disk b1 !! path (storage b) = disk b !! path (storage b)
       ∨ disk b1 !! path (storage b)
         = Some (MarshalIndent {| Users := users b1 |})).
Proof.
  intros Hm0. destruct (From msg) as [id|] eqn:Hid.
  - destruct (handleMessage_sender b b0 msg id ord None None Hid Hm0)
      as (us' & out & Hr & Hu0 & Hst0 & Hout0).
    destruct (handleMessage_returns b msg id ord wfault rfault us' out Hid Hr)
      as [b1 Hm].
    exists b1. split; [done|].
    destruct (handleMessage_sender b b1 msg id ord wfault rfault Hid Hm)
      as (us1 & out1 & Hr1 & Hu & Hst & Hout).
    rewrite Hr in Hr1. injection Hr1 as <- <-.
    split; [congruence|]. split; [congruence|].
    destruct out as [[reply kb]|].
    + destruct Hout as [-> ->], Hout0 as [-> _]. split; [done|].
      destruct (Save (storage b) (disk b) (users b1) wfault rfault)
        as [fs' e] eqn:HS; cbn [fst].
      apply Save_path in HS. destruct e; [by left | by right].
    + destruct Hout as [-> ->], Hout0 as [-> _]. split; [done|]. by left.
  - unfold handleMessage in *. rewrite Hid in *. injection Hm0 as <-.
    exists b. split_and!; [done..|]. by left.
Qed.

(** [X17] After an answered message whose snapshot was written, a restart
    finds the bot where it was: [NewBot] on the disk the message left
    returns the same registry, as long as its keys are [int64] values and
    its strings valid UTF-8. *)
Theorem restart_restores_registry (b b' : Bot) (msg : Message) (id : Z)
    (ord : list (string * string)) :
  From msg = Some id → Body msg ≠ Text "" →
  handleMessage b msg ord None None = Ok b' →
  int64_keys (users b') → valid_collection (users b') →
  NewBot (storage b') (disk b') None
  = Val {| storage := storage b'; users := users b'; disk := disk b';
           sent := [] |}.
Proof.
  intros Hid Hbody Hm Hk Hv.
  destruct (handleMessage_sender b b' msg id ord None None Hid Hm)
    as (us' & out & Hr & Hu & Hst & Hout).
  destruct out as [[reply kb]|]; cycle 1.
  { apply only_empty_text_is_unanswered in Hr. destruct Hbody. by apply Hr. }
  destruct Hout as [_ Hdisk].
  pose proof (Save_without_fault (storage b) (disk b) (users b')) as He.
  destruct (Save (storage b) (disk b) (users b') None None) as [fs' e] eqn:HS.
  cbn [fst snd] in *. subst e fs'. apply Save_ok in HS.
  unfold NewBot, Load, ReadFile. rewrite Hst, HS.
  rewrite Unmarshal_MarshalIndent by done. cbn [Users].
  rewrite decide_False; [done|]. by rewrite Hu.
Qed.

End message_facts.

(** ** The update loop *)

Section loop_facts.
Context `{Unicode} `{Syntax}.

(** What the handlers keep of one session, the loop keeps of the session
    of every user. *)
Lemma Run_keeps (P : UserState → Prop) :
  (∀ u u' bd ord out, respond u bd ord = Ok (u', out) → P u → P u') →
  ∀ (updates : list (option Message * choices)) (b b' : Bot) (j : Z)
    (u : UserState),
    Run b updates = Ok b' →
    index (users b) j = Some (Some u) → P u →
    ∃ u', index (users b') j = Some (Some u') ∧ P u'.
Proof.
  intros HP updates.
  induction updates as [|[[msg|] [[ord wfault] rfault]] updates IH];
    intros b b' j u; cbn [Run].
  - intros [= <-] Hj Hu. by exists u.
  - destruct (handleMessage b msg ord wfault rfault) as [b1|m] eqn:Hm;
      cbn [rbind]; [|done].
    intros HR Hj Hu. destruct (decide (From msg = Some j)) as [Hid|Hid].
    + destruct (handleMessage_sender b b1 msg j ord wfault rfault Hid Hm)
        as (us' & out & Hr & Hus & _).
      rewrite (getUserState_present _ _ _ Hj) in Hr. cbn [fst] in Hr.
      apply (IH b1 b' j us' HR).
      * rewrite Hus. apply lookup_insert_eq.
      * by eapply HP.
    + apply (IH b1 b' j u HR); [|done].
      rewrite <-Hj. by eapply handleMessage_others.
  - apply IH.
Qed.

(** [X18] The session of a user depends on the messages of that user
    only: the loop run on those of the updates that the user sent, all
    others left out, ends with the same session for the user. *)
Theorem sessions_do_not_interfere (b b' : Bot)
    (updates : list (option Message * choices)) (id : Z) :
  Run b updates = Ok b' →
  ∃ b'', Run b (List.filter (sent_by id) updates) = Ok b''
         ∧ index (users b') id = index (users b'') id.
Proof.
  enough (∀ b1 b2 : Bot,
            index (users b1) id = index (users b2) id →
            Run b1 updates = Ok b' →
            ∃ b'', Run b2 (List.filter (sent_by id) updates) = Ok b''
                   ∧ index (users b') id = index (users b'') id) as Hgen
    by exact (Hgen b b eq_refl).
  induction updates as [|[[msg|] [[ord wfault] rfault]] updates IH];
    intros b1 b2 Heq; cbn [Run List.filter].
  - intros [= <-]. by exists b2.
  - destruct (handleMessage b1 msg ord wfault rfault) as [b1'|m] eqn:Hm;
      cbn [rbind]; [|done].
    intros HR. unfold sent_by at 1. cbn [fst]. case_bool_decide as Hid.
    + destruct (handleMessage_local b1 b2 b1' msg id ord wfault rfault
                  Hid Heq Hm) as (b2' & Hm2 & Heq').
      cbn [Run]. rewrite Hm2. cbn [rbind]. by apply (IH b1' b2').
    + apply (IH b1' b2); [|done].
      rewrite <-Heq. by eapply handleMessage_others.
  - unfold sent_by at 1. cbn [fst]. by apply IH.
Qed.

(** [X19] The loop never forgets: a user who has a session with a fact
    under some category still has a session with a fact under that category
    when the loop ends, whatever the updates were. *)
Theorem Run_never_forgets (b b' : Bot)
    (updates : list (option Message * choices)) (j : Z) (u : UserState)
    (k : string) :
  Run b updates = Ok b' →
  index (users b) j = Some (Some u) → is_Some (index (Data u) k) →
  ∃ u', index (users b') j = Some (Some u') ∧ is_Some (index (Data u') k).
Proof.
  apply (Run_keeps (λ u, is_Some (index (Data u) k))).
  intros u0 u1 bd ord out. apply respond_keeps_facts.
Qed.

(** [X20] Whoever sent a message has a session when the loop ends, be the
    message a command, a text or an empty text. *)
Theorem every_sender_is_registered (b b' : Bot)
    (updates : list (option Message * choices)) (msg : Message) (c : choices)
    (id : Z) :
  Run b updates = Ok b' →
  (Some msg, c) ∈ updates → From msg = Some id →
  ∃ u, index (users b') id = Some (Some u).
Proof.
  intros HR Hin Hid. revert b HR.
  induction updates as [|upd updates IH]; intros b HR.
  { by apply elem_of_nil in Hin. }
  apply elem_of_cons in Hin as [<-|Hin].
  - destruct c as [[ord wfault] rfault]. cbn [Run] in HR.
    destruct (handleMessage b msg ord wfault rfault) as [b1|m] eqn:Hm;
      cbn [rbind] in HR; [|done].
    destruct (handleMessage_sender b b1 msg id ord wfault rfault Hid Hm)
      as (us' & out & _ & Hus & _).
    destruct (Run_keeps (λ _, True) (λ _ _ _ _ _ _ _, I) updates b1 b' id us'
                HR) as (u' & Hu' & _); [|done|by exists u'].
    rewrite Hus. apply lookup_insert_eq.
  - destruct upd as [[m|] [[ord wfault] rfault]]; cbn [Run] in HR.
    + destruct (handleMessage b m ord wfault rfault) as [b1|p] eqn:Hm;
        cbn [rbind] in HR; [|done].
      by apply (IH Hin b1).
    + by apply (IH Hin b).
Qed.

(** [X21] The loop does not panic: when every session of the registry
    has its facts map allocated, every list of updates is handled to the
    end, and the sessions of the registry then still have theirs. *)
Theorem Run_returns (b : Bot) (updates : list (option Message * choices)) :
  allocated (users b) →
  ∃ b', Run b updates = Ok b' ∧ allocated (users b').
Proof.
  revert b.
  induction updates as [|[[msg|] [[ord wfault] rfault]] updates IH];
    intros b Hb; cbn [Run].
  - by exists b.
  - destruct (handleMessage_allocated b msg ord wfault rfault Hb)
      as (b1 & -> & Hb1).
    cbn [rbind]. by apply IH.
  - by apply IH.
Qed.

End loop_facts.

(** ** The further properties on the sample bots *)

Lemma dropped_messages_witness :
  handleMessage one_user_bot anonymous_text [] None None = Ok one_user_bot
  ∧ ∃ b', handleMessage one_user_bot empty_text_from_7 [] None None = Ok b'
          ∧ sent b' = [] ∧ disk b' = ∅
          ∧ index (users b') 7 = Some (Some NewUserState).
Proof.
  split.
  - apply (proj1 (dropped_messages one_user_bot anonymous_text [] None None)).
    reflexivity.
  - apply (proj2 (dropped_messages one_user_bot empty_text_from_7 [] None None)
             7); reflexivity.
Defined.

Lemma one_reply_per_message_witness :
  ∃ reply kb,
    sent one_user_bot_answered = sent one_user_bot ++ [(42, reply, kb)]
    ∧ reply ≠ "".
Proof.
  apply (one_reply_per_message one_user_bot one_user_bot_answered
           show_data_from_42 42 [("age", "30")] None None);
    [reflexivity | done | vm_compute; reflexivity].
Defined.

Lemma save_failure_witness :
  ∃ b1,
    handleMessage one_user_bot show_data_from_42 [("age", "30")] full_disk None
      = Ok b1
    ∧ storage b1 = storage one_user_bot_answered
    ∧ users b1 = users one_user_bot_answered
    ∧ sent b1 = sent one_user_bot_answered
    ∧ (disk b1 !! "conversationbot.json"
         = disk one_user_bot !! "conversationbot.json"
       ∨ disk b1 !! "conversationbot.json"
         = Some (MarshalIndent {| Users := users b1 |})).
Proof.
  apply (save_failure_is_not_fatal one_user_bot one_user_bot_answered
           show_data_from_42 [("age", "30")] full_disk None).
  vm_compute. reflexivity.
Defined.

(** With the disk full the reply goes out all the same and nothing is
    written. *)
Example full_disk_reply :
  handleMessage one_user_bot show_data_from_42 [("age", "30")] full_disk None
  = Ok one_user_bot_unsaved.
Proof. vm_compute. reflexivity. Qed.

Lemma restart_witness :
  NewBot (NewStorage "conversationbot.json") (disk one_user_bot_answered) None
  = Val {| storage := NewStorage "conversationbot.json"; users := one_user;
           disk := disk one_user_bot_answered; sent := [] |}.
Proof.
  apply (restart_restores_registry one_user_bot one_user_bot_answered
           show_data_from_42 42 [("age", "30")]);
    [reflexivity | done | vm_compute; reflexivity
    | exact one_user_int64 | exact one_user_valid].
Defined.

Lemma sessions_do_not_interfere_witness :
  ∃ b'', Run one_user_bot (List.filter (sent_by 42) small_talk) = Ok b''
         ∧ index (users after_small_talk) 42 = index (users b'') 42.
Proof.
  apply (sessions_do_not_interfere one_user_bot after_small_talk small_talk 42).
  vm_compute. reflexivity.
Defined.

Lemma Run_never_forgets_witness :
  ∃ u', index (users after_small_talk) 42 = Some (Some u')
        ∧ is_Some (index (Data u') "age").
Proof.
  apply (Run_never_forgets one_user_bot after_small_talk small_talk 42
           {| State := StateChoosing; Data := Some {[ "age" := "30" ]};
              Choice := "" |} "age");
    [vm_compute; reflexivity | reflexivity | by eexists].
Defined.

Lemma every_sender_is_registered_witness :
  ∃ u, index (users after_small_talk) 7 = Some (Some u).
Proof.
  apply (every_sender_is_registered one_user_bot after_small_talk small_talk
           {| From := Some 7; Chat := 7; Body := Command "start" |}
           ([], None, None) 7);
    [vm_compute; reflexivity
    | apply list_elem_of_further, list_elem_of_here
    | reflexivity].
Defined.

Lemma one_user_allocated : allocated one_user.
Proof.
  intros id u Hu. unfold index, one_user in Hu. cbn in Hu.
  by apply lookup_singleton_Some in Hu as [_ [= <-]].
Qed.

Lemma Run_returns_witness :
  ∃ b', Run one_user_bot small_talk = Ok b' ∧ allocated (users b').
Proof. apply (Run_returns one_user_bot small_talk), one_user_allocated. Defined.
